(** * Uploads agent (server/libs/uploads-agent.js)

    A shallow embedding of the uploads agent of the wiki: the per-file
    processor [processFile], the start-up scan [initialScan] and the two
    handlers that [watch] installs on the file watcher.

    The agent is asynchronous JavaScript.  Every [await] is modelled as a
    step of a state-and-error computation over a [World] (file system,
    the two Mongo collections, and the trace of calls made to the logger,
    to the catalog, to git and to the watcher); a rejected promise or a
    thrown exception is the [Threw] outcome.  [Promise.map] is modelled
    with the schedule that runs the mapper on the items one after the
    other, in list order. *)

From Stdlib Require Import ZArith Ascii String List Lia Bool.
From stdpp Require Import gmap strings list fin_maps.
Import ListNotations.
Local Open Scope string_scope.

(** ** crypto.createHash('md5') ... digest('hex')

    Node's [crypto] module is not part of the repository; the digest that
    [processFile] asks for is MD5 (RFC 1321), written out here on 32-bit
    words held in [Z] so that identifiers can be computed. *)
Module Md5.
Local Open Scope Z_scope.

Definition mask32 : Z := 4294967295.
Definition add32 (a b : Z) : Z := Z.land (a + b) mask32.
Definition not32 (a : Z) : Z := Z.lxor a mask32.
Definition rotl32 (x s : Z) : Z :=
  Z.land (Z.lor (Z.shiftl x s) (Z.shiftr x (32 - s))) mask32.

Definition K : list Z :=
  [ 3614090360; 3905402710; 606105819; 3250441966; 4118548399; 1200080426;
    2821735955; 4249261313; 1770035416; 2336552879; 4294925233; 2304563134;
    1804603682; 4254626195; 2792965006; 1236535329; 4129170786; 3225465664;
    643717713; 3921069994; 3593408605; 38016083; 3634488961; 3889429448;
    568446438; 3275163606; 4107603335; 1163531501; 2850285829; 4243563512;
    1735328473; 2368359562; 4294588738; 2272392833; 1839030562; 4259657740;
    2763975236; 1272893353; 4139469664; 3200236656; 681279174; 3936430074;
    3572445317; 76029189; 3654602809; 3873151461; 530742520; 3299628645;
    4096336452; 1126891415; 2878612391; 4237533241; 1700485571; 2399980690;
    4293915773; 2240044497; 1873313359; 4264355552; 2734768916; 1309151649;
    4149444226; 3174756917; 718787259; 3951481745 ].

Definition shifts : list Z :=
  [ 7; 12; 17; 22; 7; 12; 17; 22; 7; 12; 17; 22; 7; 12; 17; 22;
    5; 9; 14; 20; 5; 9; 14; 20; 5; 9; 14; 20; 5; 9; 14; 20;
    4; 11; 16; 23; 4; 11; 16; 23; 4; 11; 16; 23; 4; 11; 16; 23;
    6; 10; 15; 21; 6; 10; 15; 21; 6; 10; 15; 21; 6; 10; 15; 21 ].

(** Message bytes, the 1 bit, zeros up to 56 mod 64, then the bit length
    on eight little-endian bytes. *)
Definition le_bytes (n : nat) (x : Z) : list Z :=
  map (fun i => Z.land (Z.shiftr x (8 * Z.of_nat i)) 255) (seq 0 n).

Definition pad (msg : list Z) : list Z :=
  let len := Z.of_nat (length msg) in
  let zeros := Z.to_nat ((55 - len) mod 64) in
  msg ++ 128 :: repeat 0 zeros ++ le_bytes 8 (8 * len).

Fixpoint le_word (bs : list Z) : Z :=
  match bs with
  | [] => 0
  | b :: bs' => b + 256 * le_word bs'
  end.

(** The sixteen words of a 64-byte block. *)
Fixpoint words (n : nat) (bs : list Z) : list Z :=
  match n with
  | O => []
  | S n' => le_word (firstn 4 bs) :: words n' (skipn 4 bs)
  end.

Record state := State { sa : Z; sb : Z; sc : Z; sd : Z }.

Definition step (M : list Z) (st : state) (i : nat) : state :=
  let iz := Z.of_nat i in
  let '(State a b c d) := st in
  let '(f, g) :=
    if iz <? 16 then (Z.lor (Z.land b c) (Z.land (not32 b) d), iz)
    else if iz <? 32 then
      (Z.lor (Z.land d b) (Z.land (not32 d) c), (5 * iz + 1) mod 16)
    else if iz <? 48 then (Z.lxor b (Z.lxor c d), (3 * iz + 5) mod 16)
    else (Z.lxor c (Z.lor b (not32 d)), (7 * iz) mod 16) in
  let f' := add32 (add32 (add32 f a) (nth i K 0)) (nth (Z.to_nat g) M 0) in
  State d (add32 b (rotl32 f' (nth i shifts 0))) b c.

Definition block (st : state) (bs : list Z) : state :=
  let r := fold_left (step (words 16 bs)) (seq 0 64) st in
  State (add32 (sa st) (sa r)) (add32 (sb st) (sb r))
        (add32 (sc st) (sc r)) (add32 (sd st) (sd r)).

Fixpoint blocks (n : nat) (st : state) (bs : list Z) : state :=
  match n with
  | O => st
  | S n' => blocks n' (block st (firstn 64 bs)) (skipn 64 bs)
  end.

Definition init : state := State 1732584193 4023233417 2562383102 271733878.

(** The 16-byte digest. *)
Definition digest (msg : list Z) : list Z :=
  let p := pad msg in
  let st := blocks (Nat.div (length p) 64) init p in
  le_bytes 4 (sa st) ++ le_bytes 4 (sb st) ++
  le_bytes 4 (sc st) ++ le_bytes 4 (sd st).

End Md5.

(** digest('hex'): two lower-case digits per byte. *)
Definition hex_digit (n : Z) : ascii :=
  nth (Z.to_nat n)
      (list_ascii_of_string "0123456789abcdef") "0"%char.

Fixpoint hex (bs : list Z) : string :=
  match bs with
  | [] => ""
  | b :: bs' =>
      String (hex_digit (Z.shiftr b 4))
             (String (hex_digit (Z.land b 15)) (hex bs'))
  end.

(** .update(str): the bytes of the string. *)
Definition bytes_of_string (s : string) : list Z :=
  map (fun c => Z.of_N (N_of_ascii c)) (list_ascii_of_string s).

Definition md5_hex (s : string) : string :=
  hex (Md5.digest (bytes_of_string s)).

(** uploads-agent.js line 175:
    [crypto.createHash('md5').update(fldName + '/' + f).digest('hex')] *)
Definition identify (fldName f : string) : string :=
  md5_hex (fldName ++ "/" ++ f).

(** ** path.parse and path.format (POSIX flavour)

    Node's [path] module is not part of the repository either.  [parse]
    decides what the watcher takes for the folder and the file name of an
    event, so its backwards scan is written out as Node runs it; [-1] is
    the "not seen yet" mark of the original, hence indices in [Z]. *)
Module Path.
Local Open Scope Z_scope.

Record parsed := Parsed
  { root : string; dir : string; base : string; ext : string; name : string }.

Definition charCodeAt (s : string) (i : Z) : option ascii :=
  String.get (Z.to_nat i) s.

Definition is_char (c : ascii) (o : option ascii) : bool :=
  match o with
  | Some c' => Ascii.eqb c' c
  | None => false
  end.

Definition slice (s : string) (from to : Z) : string :=
  String.substring (Z.to_nat from) (Z.to_nat (to - from)) s.

Record scan := Scan
  { startDot : Z; startPart : Z; end_ : Z; matchedSlash : bool;
    preDotState : Z }.

(** The [for (; i >= start; --i)] loop; [n] counts the indices left, so
    the index visited is [start + n - 1]. *)
Fixpoint parse_loop (path : string) (start : Z) (n : nat) (st : scan) : scan :=
  match n with
  | O => st
  | S n' =>
      let i := start + Z.of_nat n' in
      let code := charCodeAt path i in
      if is_char "/" code then
        if negb (matchedSlash st) then
          Scan (startDot st) (i + 1) (end_ st) (matchedSlash st)
               (preDotState st)
        else parse_loop path start n' st
      else
        let st1 :=
          if end_ st =? -1 then
            Scan (startDot st) (startPart st) (i + 1) false (preDotState st)
          else st in
        let st2 :=
          if is_char "." code then
            if startDot st1 =? -1 then
              Scan i (startPart st1) (end_ st1) (matchedSlash st1)
                   (preDotState st1)
            else if negb (preDotState st1 =? 1) then
              Scan (startDot st1) (startPart st1) (end_ st1)
                   (matchedSlash st1) 1
            else st1
          else if negb (startDot st1 =? -1) then
            Scan (startDot st1) (startPart st1) (end_ st1)
                 (matchedSlash st1) (-1)
          else st1 in
        parse_loop path start n' st2
  end.

Definition parse (path : string) : parsed :=
  if (String.length path =? 0)%nat then Parsed "" "" "" "" ""
  else
    let isAbsolute := is_char "/" (charCodeAt path 0) in
    let root_ := if isAbsolute then "/"%string else ""%string in
    let start := if isAbsolute then 1 else 0 in
    let len := Z.of_nat (String.length path) in
    let st := parse_loop path start (Z.to_nat (len - start))
                (Scan (-1) 0 (-1) true 0) in
    let '(base_, ext_, name_) :=
      if negb (end_ st =? -1) then
        let start' :=
          if (startPart st =? 0) && isAbsolute then 1 else startPart st in
        if (startDot st =? -1)
           || (preDotState st =? 0)
           || ((preDotState st =? 1)
               && (startDot st =? end_ st - 1)
               && (startDot st =? startPart st + 1))
        then (slice path start' (end_ st), ""%string,
              slice path start' (end_ st))
        else (slice path start' (end_ st),
              slice path (startDot st) (end_ st),
              slice path start' (startDot st))
      else (""%string, ""%string, ""%string) in
    let dir_ :=
      if startPart st >? 0 then slice path 0 (startPart st - 1)
      else if isAbsolute then "/"%string else ""%string in
    Parsed root_ dir_ base_ ext_ name_.

Definition nonempty (s : string) : bool := negb (String.length s =? 0)%nat.

(** [path.format]: [dir || root], then [base || name + ext]. *)
Definition format (p : parsed) : string :=
  let d := if nonempty (dir p) then dir p else root p in
  let b := if nonempty (base p) then base p else (name p ++ ext p)%string in
  if negb (nonempty d) then b
  else if String.eqb d (root p) then (d ++ b)%string
  else (d ++ "/" ++ b)%string.

End Path.

(** ** Data model *)

Inductive Category := image | binary.

(** What image-size reports and [processFile] stores under [extra]. *)
Record Dims := { width : Z; height : Z }.

(** The document [processFile] builds ([mData], lines 199-208 and
    233-241).  The binary document has no [extra] key. *)
Record FileRecord := {
  _id : string;
  category : Category;
  mime : string;
  extra : option Dims;
  folder : string;
  filename : string;
  basename : string;
  filesize : Z
}.

(** The folder document of lines 102-105. *)
Module FolderDoc.
Record t := Make { _id : string; name : string }.
End FolderDoc.

(** The JavaScript values that flow out of [processFile]: a document,
    [false] (not a regular file), or whatever [winston.error] returned.
    [JsLogger] stands for a logger object, which has no [_id] property. *)
Inductive JsValue :=
| JsUndefined
| JsFalse
| JsString (s : string)
| JsLogger
| JsRecord (r : FileRecord).

(** What a call to a logging method of winston evaluates to: nothing
    ([undefined]) or the logger itself, depending on the release. *)
Inductive LoggerResult := Nothing | TheLogger.

Definition js_of_logger_result (x : LoggerResult) : JsValue :=
  match x with
  | Nothing => JsUndefined
  | TheLogger => JsLogger
  end.

(** [if (mData)] *)
Definition truthy (v : JsValue) : bool :=
  match v with
  | JsUndefined | JsFalse => false
  | JsString s => Path.nonempty s
  | JsLogger | JsRecord _ => true
  end.

Inductive Exn :=
| ENOENT (p : string)
| ENOTDIR (p : string)
| EISDIR (p : string)
| EEXIST (p : string)
| EACCES (p : string)
| BadImage (p : string)
| TypeError
| CatalogError.

Inductive Outcome (A : Type) :=
| Returned (a : A)
| Threw (e : Exn).
Arguments Returned {A} a.
Arguments Threw {A} e.

(** [mData._id]: reading a property of [undefined] throws, of anything
    else without the property gives [undefined]. *)
Definition get_id (v : JsValue) : Outcome JsValue :=
  match v with
  | JsUndefined => Threw TypeError
  | JsRecord r => Returned (JsString (_id r))
  | JsFalse | JsString _ | JsLogger => Returned JsUndefined
  end.

(** *** File system *)

(** A regular file: the size [stat] reports, its bytes, and whether it can
    be opened for reading. *)
Record File := { st_size : Z; content : list Z; readable : bool }.

Inductive Node :=
| Dir (entries : list string)
| Reg (f : File)
| Special.

Module Stats.
Record t := Make { isFile : bool; isDirectory : bool; size : Z }.
End Stats.

Definition stat_of (n : Node) : Stats.t :=
  match n with
  | Dir _ => Stats.Make false true 4096
  | Reg f => Stats.Make true false (st_size f)
  | Special => Stats.Make false false 0
  end.

(** *** Trace of calls to the collaborators *)

Inductive Level := info | error.

Inductive LogMsg :=
| ReadingUploads
| EntriesFound (n : nat)
| DirectoriesFound (n : nat)
| RemovingFolders
| InsertingFolders (n : nat)
| Traversing
| TraversingDir (fldName : string)
| FilesFound (fldName : string) (n : nat)
| AddingFile (f : string)
| SkippingFile (f : string)
| ScanError (err : Exn)
| RemovingFiles
| InsertingFiles (n : nat)
| NoFiles
| SettingWatcher
| ScanFailed (err : Exn)
| ProcessingFile (fldName f : string)
| NotAFile (fPath : string)
| GeneratingThumbnail (fldName f : string)
| TooLarge (fldName f : string)
| ProcessingError (err : Exn)
| ThumbnailError (err : Exn).

(** [lang.t('git:uploaded', { path: p })] and [lang.t('git:deleted', ...)] *)
Inductive CommitMsg :=
| Uploaded (p : string)
| Deleted (p : string).

Inductive Event :=
| Log (lvl : Level) (m : LogMsg)
| FolderRemove
| FolderInsertMany (docs : list FolderDoc.t)
| FileRemove
| FileInsertMany (docs : list JsValue)
| FileFindByIdAndUpdate (id doc : JsValue)
| CommitUploads (m : CommitMsg)
| JimpRead (sourcePath : string)
| JimpWrite (destPath : string)
| ChokidarWatch (root : string).

(** The state the agent works on.  [trace] has the newest call first. *)
Record World := {
  fs : gmap string Node;
  UplFolder : list FolderDoc.t;
  UplFile : list FileRecord;
  _watcher : option string;
  trace : list Event
}.

Definition set_fs (g : gmap string Node) (w : World) : World :=
  {| fs := g; UplFolder := UplFolder w; UplFile := UplFile w;
     _watcher := _watcher w; trace := trace w |}.
Definition set_UplFolder (c : list FolderDoc.t) (w : World) : World :=
  {| fs := fs w; UplFolder := c; UplFile := UplFile w;
     _watcher := _watcher w; trace := trace w |}.
Definition set_UplFile (c : list FileRecord) (w : World) : World :=
  {| fs := fs w; UplFolder := UplFolder w; UplFile := c;
     _watcher := _watcher w; trace := trace w |}.
Definition set_watcher (o : option string) (w : World) : World :=
  {| fs := fs w; UplFolder := UplFolder w; UplFile := UplFile w;
     _watcher := o; trace := trace w |}.
Definition record (e : Event) (w : World) : World :=
  {| fs := fs w; UplFolder := UplFolder w; UplFile := UplFile w;
     _watcher := _watcher w; trace := e :: trace w |}.

(** ** Computations: state passing with exceptions *)

Definition M (S A : Type) : Type := S -> Outcome A * S.

Definition ret {S A} (a : A) : M S A := fun s => (Returned a, s).
Definition throw {S A} (e : Exn) : M S A := fun s => (Threw e, s).
Definition bind {S A B} (m : M S A) (k : A -> M S B) : M S B :=
  fun s =>
    match m s with
    | (Returned a, s') => k a s'
    | (Threw e, s') => (Threw e, s')
    end.
Definition of_outcome {S A} (o : Outcome A) : M S A := fun s => (o, s).

Notation "'let*' x ':=' m 'in' k" := (bind m (fun x => k))
  (at level 10, x name, m at level 100, k at level 200).
Notation "m ';;' k" := (bind m (fun _ => k))
  (at level 100, k at level 200, right associativity).

(** [try { body } catch (err) { handler }] *)
Definition try_catch {S A} (body : M S A) (handler : Exn -> M S A) : M S A :=
  fun s =>
    match body s with
    | (Returned a, s') => (Returned a, s')
    | (Threw e, s') => handler e s'
    end.

(** [try { body } catch (err) { handler } finally { fin }] for a body whose
    value is not used: [fin] runs in every case, and an exception of [fin]
    replaces the outcome. *)
Definition try_catch_finally {S} (body : M S unit) (handler : Exn -> M S unit)
    (fin : M S unit) : M S unit :=
  fun s =>
    let '(o, s1) := try_catch body handler s in
    match fin s1 with
    | (Returned _, s2) => (o, s2)
    | (Threw e, s2) => (Threw e, s2)
    end.

(** [Promise.map(items, mapper)], the mapper run item after item. *)
Fixpoint promise_map {S A B} (mapper : A -> M S B) (items : list A)
  : M S (list B) :=
  match items with
  | [] => ret []
  | x :: rest =>
      let* y := mapper x in
      let* ys := promise_map mapper rest in
      ret (y :: ys)
  end.

(** ** The agent

    [Host] gathers what the agent takes from outside the repository: the
    two paths that [init] resolves from the configuration, and the
    library functions whose results the agent only passes on. *)
Record Host := {
  (** [self._uploadsPath] and [self._uploadsThumbsPath] after [init] *)
  _uploadsPath : string;
  _uploadsThumbsPath : string;
  (** [path.join] of two segments *)
  path_join : string -> string -> string;
  (** [fileType] on the chunk read from the file; [None] is the nil result *)
  fileType : list Z -> option string;
  (** [mime.lookup]; [None] is its [false] *)
  mime_lookup : string -> option string;
  (** [image-size] on the bytes of a file; [None] is a rejection *)
  imageSize : list Z -> option Dims;
  (** [jimp.read(..).contain(150, 150).rgba(false)] encoded as PNG;
      [None] when the source cannot be decoded *)
  jimp_contain : list Z -> option File;
  (** the value a call to [winston.error] returns *)
  winston_error_result : LoggerResult;
  (** what the catalog does with an upsert whose identifier is not a
      string or whose document is not a file document, and with a bulk
      insert of values that are not all file documents; [None] is a
      rejection *)
  upsert_other : JsValue -> JsValue -> list FileRecord -> option (list FileRecord);
  insert_other : list JsValue -> list FileRecord -> option (list FileRecord)
}.

(** *** The catalog *)

(** Modelled from the spec: the document store behind [db.UplFolder] and
    [db.UplFile] is not in the repository.  Section 6 of the spec asks it
    for delete-all, bulk insert and upsert by identifier, "insert if new,
    overwrite if existing"; collections are lists of documents, delete-all
    empties the list, bulk insert appends, and this is the upsert. *)
Fixpoint upsertById (id : string) (r : FileRecord) (c : list FileRecord)
  : list FileRecord :=
  match c with
  | [] => [r]
  | x :: rest =>
      if String.eqb (_id x) id then r :: rest
      else x :: upsertById id r rest
  end.

(** The documents of a list of values, when all of them are documents. *)
Fixpoint as_records (vs : list JsValue) : option (list FileRecord) :=
  match vs with
  | [] => Some []
  | JsRecord r :: rest =>
      match as_records rest with
      | Some rs => Some (r :: rs)
      | None => None
      end
  | _ :: _ => None
  end.

Section Agent.
Variable h : Host.

(** *** Collaborators *)

Definition winston_log (lvl : Level) (m : LogMsg) : M World unit :=
  fun w => (Returned tt, record (Log lvl m) w).

(** [winston.error(...)] used for its value *)
Definition winston_error (m : LogMsg) : M World JsValue :=
  winston_log error m ;; ret (js_of_logger_result (winston_error_result h)).

Definition statAsync (p : string) : M World Stats.t :=
  fun w =>
    match fs w !! p with
    | Some n => (Returned (stat_of n), w)
    | None => (Threw (ENOENT p), w)
    end.

Definition readdirAsync (p : string) : M World (list string) :=
  fun w =>
    match fs w !! p with
    | Some (Dir entries) => (Returned entries, w)
    | Some _ => (Threw (ENOTDIR p), w)
    | None => (Threw (ENOENT p), w)
    end.

(** The bytes of a file, for the libraries that open it. *)
Definition read_file (p : string) : M World (list Z) :=
  fun w =>
    match fs w !! p with
    | Some (Reg f) =>
        if readable f then (Returned (content f), w) else (Threw (EACCES p), w)
    | Some (Dir _) => (Threw (EISDIR p), w)
    | Some Special => (Threw (EACCES p), w)
    | None => (Threw (ENOENT p), w)
    end.

(** [readChunk.sync(p, 0, n)] *)
Definition readChunk (p : string) (n : nat) : M World (list Z) :=
  let* bytes := read_file p in ret (firstn n bytes).

(** [fs.ensureDirAsync] *)
Definition ensureDirAsync (p : string) : M World unit :=
  fun w =>
    match fs w !! p with
    | Some (Dir _) => (Returned tt, w)
    | Some _ => (Threw (EEXIST p), w)
    | None => (Returned tt, set_fs (<[p := Dir []]> (fs w)) w)
    end.

(** The directory entry a new file gets. *)
Definition add_entry (p : string) (g : gmap string Node) : gmap string Node :=
  let pp := Path.parse p in
  match g !! Path.dir pp with
  | Some (Dir entries) =>
      if existsb (String.eqb (Path.base pp)) entries then g
      else <[Path.dir pp := Dir (entries ++ [Path.base pp])]> g
  | _ => g
  end.

(** jimp's [write(destPath, cb)] *)
Definition write_file (p : string) (f : File) : M World unit :=
  fun w =>
    match fs w !! p with
    | Some (Dir _) => (Threw (EISDIR p), w)
    | Some Special => (Returned tt, w)
    | Some (Reg _) => (Returned tt, set_fs (<[p := Reg f]> (fs w)) w)
    | None => (Returned tt, set_fs (<[p := Reg f]> (add_entry p (fs w))) w)
    end.

Definition UplFolder_remove : M World unit :=
  fun w => (Returned tt, record FolderRemove (set_UplFolder [] w)).

Definition UplFolder_insertMany (docs : list FolderDoc.t) : M World unit :=
  fun w =>
    (Returned tt,
     record (FolderInsertMany docs) (set_UplFolder (UplFolder w ++ docs) w)).

Definition UplFile_remove : M World unit :=
  fun w => (Returned tt, record FileRemove (set_UplFile [] w)).

Definition UplFile_insertMany (docs : list JsValue) : M World unit :=
  fun w =>
    let w' := record (FileInsertMany docs) w in
    match as_records docs with
    | Some rs => (Returned tt, set_UplFile (UplFile w ++ rs) w')
    | None =>
        match insert_other h docs (UplFile w) with
        | Some c => (Returned tt, set_UplFile c w')
        | None => (Threw CatalogError, w')
        end
    end.

(** [db.UplFile.findByIdAndUpdate(id, doc, { upsert: true })] *)
Definition UplFile_findByIdAndUpdate (id doc : JsValue) : M World unit :=
  fun w =>
    let w' := record (FileFindByIdAndUpdate id doc) w in
    match id, doc with
    | JsString i, JsRecord r =>
        (Returned tt, set_UplFile (upsertById i r (UplFile w)) w')
    | _, _ =>
        match upsert_other h id doc (UplFile w) with
        | Some c => (Returned tt, set_UplFile c w')
        | None => (Threw CatalogError, w')
        end
    end.

(** [git.commitUploads(msg)] *)
Definition git_commitUploads (m : CommitMsg) : M World JsValue :=
  fun w => (Returned JsUndefined, record (CommitUploads m) w).

(** *** uploads-agent.js *)

(** [getImageSize (sourcePath)], lines 278-280 *)
Definition getImageSize (sourcePath : string) : M World Dims :=
  let* bytes := read_file sourcePath in
  match imageSize h bytes with
  | Some d => ret d
  | None => throw (BadImage sourcePath)
  end.

(** [generateThumbnail (sourcePath, destPath)], lines 254-270 *)
Definition generateThumbnail (sourcePath destPath : string) : M World unit :=
  try_catch
    ((fun w => (Returned tt, record (JimpRead sourcePath) w)) ;;
     let* bytes := read_file sourcePath in
     match jimp_contain h bytes with
     | None => throw (BadImage sourcePath)
     | Some img =>
         (fun w => (Returned tt, record (JimpWrite destPath) w)) ;;
         write_file destPath img
     end)
    (fun err => winston_log error (ThumbnailError err) ;; throw err).

Definition image_mimes : list string :=
  ["image/png"; "image/jpeg"; "image/gif"; "image/bmp"].

(** [_.includes(list, x)] *)
Definition includes (l : list string) (x : string) : bool :=
  existsb (String.eqb x) l.

(** The [try] block of [processFile], lines 172-241. *)
Definition process_body (fldName f : string) : M World JsValue :=
    (let fldPath := path_join h (_uploadsPath h) fldName in
     let fPath := path_join h fldPath f in
     let fPathObj := Path.parse fPath in
     let fUid := identify fldName f in
     let* s := statAsync fPath in
     if negb (Stats.isFile s) then
       winston_log info (NotAFile fPath) ;; ret JsFalse
     else
       let* chunk := readChunk fPath 262 in
       let mimeInfo :=
         match fileType h chunk with
         | Some m => m
         | None =>
             match mime_lookup h (Path.ext fPathObj) with
             | Some m => m
             | None => "application/octet-stream"
             end
         end in
       let other : M World JsValue :=
         ret (JsRecord
                {| _id := fUid; category := binary; mime := mimeInfo;
                   extra := None; folder := "f:" ++ fldName; filename := f;
                   basename := Path.name fPathObj;
                   filesize := Stats.size s |}) in
       if (Stats.size s <? 3145728)%Z then
         if includes image_mimes mimeInfo then
           let* mImgSize := getImageSize fPath in
           let cacheThumbnailPath :=
             Path.parse (path_join h (_uploadsThumbsPath h) (fUid ++ ".png")) in
           let cacheThumbnailPathStr := Path.format cacheThumbnailPath in
           let mData :=
             {| _id := fUid; category := image; mime := mimeInfo;
                extra := Some mImgSize; folder := "f:" ++ fldName;
                filename := f; basename := Path.name fPathObj;
                filesize := Stats.size s |} in
           winston_log info (GeneratingThumbnail fldName f) ;;
           let* thumbExists :=
             try_catch
               (let* st := statAsync cacheThumbnailPathStr in
                ret (Stats.isFile st))
               (fun _ => ret false) in
           if thumbExists then ret (JsRecord mData)
           else
             ensureDirAsync (Path.dir cacheThumbnailPath) ;;
             generateThumbnail fPath cacheThumbnailPathStr ;;
             ret (JsRecord mData)
         else other
       else
         winston_log info (TooLarge fldName f) ;; other).

(** [processFile (fldName, f)], lines 167-245 *)
Definition processFile (fldName f : string) : M World JsValue :=
  winston_log info (ProcessingFile fldName f) ;;
  try_catch (process_body fldName f)
    (fun err => winston_error (ProcessingError err)).

(** [parseUploadsRelPath (f)], lines 152-158 *)
Definition parseUploadsRelPath (f : string) : string * string :=
  let fObj := Path.parse f in
  (Path.dir fObj, Path.base fObj).

(** The handler of the watcher's 'add' event, lines 60-67. *)
Definition on_add (p : string) : M World JsValue :=
  let pInfo := parseUploadsRelPath p in
  let* mData := processFile (fst pInfo) (snd pInfo) in
  let* id := of_outcome (get_id mData) in
  UplFile_findByIdAndUpdate id mData ;;
  git_commitUploads (Uploaded p).

(** The handler of the watcher's 'unlink' event, lines 71-73. *)
Definition on_unlink (p : string) : M World JsValue :=
  git_commitUploads (Deleted p).

(** [watch ()], lines 47-74: the watcher is created on the uploads folder
    and the two handlers above are installed. *)
Definition watch : M World JsValue :=
  fun w =>
    (Returned JsUndefined,
     record (ChokidarWatch (_uploadsPath h))
            (set_watcher (Some (_uploadsPath h)) w)).

(** The scan keeps the local array [allFiles] next to the world: the
    mappers push to it, and what was pushed stays when a later mapper
    throws. *)
Record Scan := { world : World; allFiles : list JsValue }.

Definition lift {A} (m : M World A) : M Scan A :=
  fun s =>
    let '(o, w) := m (world s) in
    (o, {| world := w; allFiles := allFiles s |}).

(** [allFiles.push(mData)] *)
Definition push (v : JsValue) : M Scan unit :=
  fun s => (Returned tt, {| world := world s; allFiles := allFiles s ++ [v] |}).

(** [let allFiles = []] ... the block that uses it *)
Definition with_allFiles {A} (m : M Scan A) : M World A :=
  fun w =>
    let '(o, s) := m {| world := w; allFiles := [] |} in (o, world s).

(** The mapper over the files of a folder, lines 115-123. *)
Definition scan_file (fldName f : string) : M Scan unit :=
  let* mData := lift (processFile fldName f) in
  if truthy mData then
    lift (winston_log info (AddingFile f)) ;; push mData
  else lift (winston_log error (SkippingFile f)).

(** The mapper over the folders, lines 110-124. *)
Definition scan_folder (fldName : string) : M Scan unit :=
  lift (winston_log info (TraversingDir fldName)) ;;
  let fldPath := path_join h (_uploadsPath h) fldName in
  let* fList := lift (readdirAsync fldPath) in
  lift (winston_log info (FilesFound fldName (length fList))) ;;
  promise_map (scan_file fldName) fList ;;
  ret tt.

(** The [finally] block, lines 128-136. *)
Definition replace_files : M Scan unit :=
  lift (winston_log info RemovingFiles) ;;
  lift UplFile_remove ;;
  fun s =>
    (if (0 <? length (allFiles s))%nat then
       lift (winston_log info (InsertingFiles (length (allFiles s)))) ;;
       lift (UplFile_insertMany (allFiles s))
     else lift (winston_log info NoFiles)) s.

(** Lines 109-137: traverse, log a failure of the traversal, and replace
    the file collection in every case. *)
Definition traverse_and_replace (folderNames : list string) : M Scan unit :=
  try_catch_finally
    (promise_map scan_folder folderNames ;; ret tt)
    (fun err => lift (winston_log error (ScanError err)))
    replace_files.

Definition folder_doc (f : string) : FolderDoc.t :=
  FolderDoc.Make ("f:" ++ f) f.

(** [initialScan ()], lines 81-144 *)
Definition initialScan : M World JsValue :=
  winston_log info ReadingUploads ;;
  let* ls := readdirAsync (_uploadsPath h) in
  try_catch
    (winston_log info (EntriesFound (length ls)) ;;
     let* stats :=
       promise_map
         (fun f =>
            let* s := statAsync (path_join h (_uploadsPath h) f) in
            ret (f, s))
         ls in
     let arrDirs := List.filter (fun s => Stats.isDirectory (snd s)) stats in
     winston_log info (DirectoriesFound (length arrDirs)) ;;
     let folderNames := "" :: map fst arrDirs in
     winston_log info RemovingFolders ;;
     UplFolder_remove ;;
     winston_log info (InsertingFolders (length folderNames)) ;;
     UplFolder_insertMany (map folder_doc folderNames) ;;
     winston_log info Traversing ;;
     with_allFiles (traverse_and_replace folderNames) ;;
     winston_log info SettingWatcher ;;
     watch)
    (fun err => winston_error (ScanFailed err)).

End Agent.

(** ** A host and some worlds to run the agent on *)
Module Sample.

Definition join (a b : string) : string :=
  if Path.nonempty a then
    if Path.nonempty b then a ++ "/" ++ b else a
  else b.

Definition png_magic : list Z := [137; 80; 78; 71]%Z.

(** Sniffing by the leading bytes, for the four image types. *)
Definition sniff (chunk : list Z) : option string :=
  match chunk with
  | 137 :: 80 :: 78 :: 71 :: _ => Some "image/png"
  | 255 :: 216 :: 255 :: _ => Some "image/jpeg"
  | 71 :: 73 :: 70 :: _ => Some "image/gif"
  | 66 :: 77 :: _ => Some "image/bmp"
  | _ => None
  end%Z.

Definition lookup (ext : string) : option string :=
  if String.eqb ext ".txt" then Some "text/plain"
  else if String.eqb ext ".png" then Some "image/png"
  else if String.eqb ext ".pdf" then Some "application/pdf"
  else None.

(** A toy image format: the magic number, then width and height. *)
Definition dims (bytes : list Z) : option Dims :=
  match bytes with
  | 137 :: 80 :: 78 :: 71 :: w :: ht :: _ => Some {| width := w; height := ht |}
  | _ => None
  end%Z.

Definition thumb (bytes : list Z) : option File :=
  match dims bytes with
  | Some _ =>
      Some {| st_size := 6; content := png_magic ++ [150; 150]%Z;
              readable := true |}
  | None => None
  end.

Definition host : Host :=
  {| _uploadsPath := "/repo/uploads";
     _uploadsThumbsPath := "/data/thumbs";
     path_join := join;
     fileType := sniff;
     mime_lookup := lookup;
     imageSize := dims;
     jimp_contain := thumb;
     winston_error_result := Nothing;
     upsert_other := fun _ _ _ => None;
     insert_other := fun _ _ => None |}.

Definition png (size w ht : Z) : Node :=
  Reg {| st_size := size; content := png_magic ++ [w; ht]; readable := true |}.

(** A file with a .png name and the magic number, but no header. *)
Definition broken_png : Node :=
  Reg {| st_size := 4; content := png_magic; readable := true |}.

Definition txt (size : Z) : Node :=
  Reg {| st_size := size; content := [104; 105]%Z; readable := true |}.

Definition world_of (g : gmap string Node) : World :=
  {| fs := g; UplFolder := []; UplFile := []; _watcher := None; trace := [] |}.

(** An uploads folder with one sub-folder. *)
Definition tree : World :=
  world_of (list_to_map
    [("/repo/uploads", Dir ["a"; "x.png"; "big.png"; "edge.png"]);
     ("/repo/uploads/a", Dir ["y.txt"; "bad.png"]);
     ("/repo/uploads/x.png", png 1000 400 100);
     ("/repo/uploads/big.png", png 3145728 400 100);
     ("/repo/uploads/edge.png", png 3145727 640 480);
     ("/repo/uploads/a/y.txt", txt 2);
     ("/repo/uploads/a/bad.png", broken_png)]).

(** The documents the agent makes of some of these files. *)
Definition x_doc : FileRecord :=
  {| _id := "62e42601dbaa60e34469e4dd0e29bbd9"; category := image;
     mime := "image/png"; extra := Some {| width := 400; height := 100 |};
     folder := "f:"; filename := "x.png"; basename := "x"; filesize := 1000 |}.

Definition edge_doc : FileRecord :=
  {| _id := "516ae4c2b90b9476047846aacab9d4c8"; category := image;
     mime := "image/png"; extra := Some {| width := 640; height := 480 |};
     folder := "f:"; filename := "edge.png"; basename := "edge";
     filesize := 3145727 |}.

Definition big_doc : FileRecord :=
  {| _id := "92befb4559d839aba9dccae95526da37"; category := binary;
     mime := "image/png"; extra := None; folder := "f:";
     filename := "big.png"; basename := "big"; filesize := 3145728 |}.

Definition y_doc (size : Z) : FileRecord :=
  {| _id := "a2dd0a4c7be9cd34da40a7eb082adfe6"; category := binary;
     mime := "text/plain"; extra := None; folder := "f:a";
     filename := "y.txt"; basename := "y"; filesize := size |}.

Definition thumb_file : File :=
  {| st_size := 6; content := png_magic ++ [150; 150]%Z; readable := true |}.

(** A root folder of five files, the third of them a broken image. *)
Definition five : World :=
  world_of (list_to_map
    [("/repo/uploads", Dir ["1.png"; "2.txt"; "3.png"; "4.txt"; "5.png"]);
     ("/repo/uploads/1.png", png 1000 400 100);
     ("/repo/uploads/2.txt", txt 2);
     ("/repo/uploads/3.png", broken_png);
     ("/repo/uploads/4.txt", txt 2);
     ("/repo/uploads/5.png", png 2000 10 10)]).

(** A catalog left over from an earlier run, and an uploads folder in
    which the sub-folder [gone] has disappeared. *)
Definition old_record : FileRecord :=
  {| _id := "0cc175b9c0f1b6a831c399e269772661"; category := binary;
     mime := "text/plain"; extra := None; folder := "f:";
     filename := "old.txt"; basename := "old"; filesize := 1 |}.

Definition stale : World :=
  {| fs := list_to_map
       [("/repo/uploads", Dir ["x.png"; "gone"]);
        ("/repo/uploads/x.png", png 1000 400 100)];
     UplFolder := []; UplFile := [old_record]; _watcher := None;
     trace := [] |}.

(** Another machine: other paths, another tree. *)
Definition other_host : Host :=
  {| _uploadsPath := "/mnt/vol/wiki/uploads";
     _uploadsThumbsPath := "/var/cache/wiki/thumbs";
     path_join := join;
     fileType := fun _ => None;
     mime_lookup := lookup;
     imageSize := dims;
     jimp_contain := thumb;
     winston_error_result := TheLogger;
     upsert_other := fun _ _ c => Some c;
     insert_other := fun _ c => Some c |}.

Definition other_tree : World :=
  world_of (list_to_map
    [("/mnt/vol/wiki/uploads", Dir ["a"]);
     ("/mnt/vol/wiki/uploads/a", Dir ["y.txt"]);
     ("/mnt/vol/wiki/uploads/a/y.txt", txt 77)]).

End Sample.

(** ** Vocabulary of the statements *)

Definition fPath_of (h : Host) (fldName f : string) : string :=
  path_join h (path_join h (_uploadsPath h) fldName) f.

Definition thumb_path (h : Host) (fldName f : string) : string :=
  Path.format
    (Path.parse (path_join h (_uploadsThumbsPath h) (identify fldName f ++ ".png"))).

(** The MIME type of lines 184-189 for a file at [fPath]. *)
Definition mime_of (h : Host) (fPath : string) (file : File) : string :=
  match fileType h (firstn 262 (content file)) with
  | Some m => m
  | None =>
      match mime_lookup h (Path.ext (Path.parse fPath)) with
      | Some m => m
      | None => "application/octet-stream"
      end
  end.

Definition is_image (h : Host) (fPath : string) (file : File) : bool :=
  (st_size file <? 3145728)%Z && includes image_mimes (mime_of h fPath file).

(** A path without a directory component: no separator in it. *)
Fixpoint bare (p : string) : bool :=
  match p with
  | EmptyString => true
  | String c rest => negb (Ascii.eqb c "/") && bare rest
  end.

(** [allFiles] grew by documents only. *)
Definition pushed_records (s s' : Scan) : Prop :=
  exists rs, allFiles s' = (allFiles s ++ map JsRecord rs)%list.

(** The messages logged at level [error], newest first. *)
Definition error_log (w : World) : list LogMsg :=
  flat_map (fun e => match e with Log error m => [m] | _ => [] end) (trace w).

(** The calls that reach the catalog, git or the watcher. *)
Definition is_call (e : Event) : bool :=
  match e with
  | Log _ _ | JimpRead _ | JimpWrite _ => false
  | _ => true
  end.

Definition calls (w : World) : list Event := List.filter is_call (trace w).

Definition same_catalog (w w' : World) : Prop :=
  UplFile w' = UplFile w /\ UplFolder w' = UplFolder w /\
  _watcher w' = _watcher w /\ calls w' = calls w.

(** Whether the entry [f] of the uploads folder is a directory. *)
Definition is_directory_at (h : Host) (w : World) (f : string) : bool :=
  match fs w !! path_join h (_uploadsPath h) f with
  | Some (Dir _) => true
  | _ => false
  end.

(** The folder names of a scan: the root, then the directories among the
    entries of the uploads folder. *)
Definition folder_names (h : Host) (w : World) (ls : list string) : list string :=
  "" :: List.filter (is_directory_at h w) ls.

(** A document filed under one of the folders [names]. *)
Definition filed_under (names : list string) (r : FileRecord) : Prop :=
  exists fldName, In fldName names /\ folder r = "f:" ++ fldName.

(** [allFiles] grew by documents filed under [names] only. *)
Definition pushed_from (names : list string) (s s' : Scan) : Prop :=
  exists rs,
    allFiles s' = (allFiles s ++ map JsRecord rs)%list /\
    Forall (filed_under names) rs.

(** The scan left the folder collection and the watcher alone. *)
Definition same_folders (s s' : Scan) : Prop :=
  UplFolder (world s') = UplFolder (world s) /\
  _watcher (world s') = _watcher (world s).

(** * Properties *)

(** ** Identifiers and paths compute *)

(** Closed equations are checked by evaluation. *)
Ltac vm_refl :=
  lazymatch goal with
  | |- @eq ?T ?l ?r => vm_cast_no_check (@eq_refl T r)
  end.

Lemma run_fst {S A} (x : Outcome A * S) (o : Outcome A) :
  fst x = o -> x = (o, snd x).
Proof. destruct x as [o' s]. simpl. by intros ->. Qed.

(** A run with a given outcome, the final state being the one the run
    reaches: only the outcome is evaluated. *)
Ltac vm_run :=
  lazymatch goal with
  | |- @eq _ ?l (?o, ?w) => unify w (snd l); apply run_fst; vm_refl
  end.

Example md5_empty : md5_hex "" = "d41d8cd98f00b204e9800998ecf8427e".
Proof. vm_refl. Qed.

Example md5_abc : md5_hex "abc" = "900150983cd24fb0d6963f7d28e17f72".
Proof. vm_refl. Qed.

Example md5_two_blocks :
  md5_hex "aaaaaaaaaaaaaaaaaaaaaaaaaaaaaaaaaaaaaaaaaaaaaaaaaaaaaaaa"
  = "3b0c8ac703f828b04c6c197006d17218".
Proof. vm_refl. Qed.

Example identify_root_png : identify "" "x.png" = "62e42601dbaa60e34469e4dd0e29bbd9".
Proof. vm_refl. Qed.

Example identify_a_txt : identify "a" "y.txt" = "a2dd0a4c7be9cd34da40a7eb082adfe6".
Proof. vm_refl. Qed.

Example parse_nested :
  Path.parse "/srv/uploads/a/pic.tar.gz"
  = Path.Parsed "/" "/srv/uploads/a" "pic.tar.gz" ".gz" "pic.tar".
Proof. vm_refl. Qed.

Example parse_relative : Path.parse "a/y.txt" = Path.Parsed "" "a" "y.txt" ".txt" "y".
Proof. vm_refl. Qed.

Example parse_bare : Path.parse "x.png" = Path.Parsed "" "" "x.png" ".png" "x".
Proof. vm_refl. Qed.

Example parse_dotfile : Path.parse "a/.profile" = Path.Parsed "" "a" ".profile" "" ".profile".
Proof. vm_refl. Qed.

Example parse_trailing : Path.parse "/a/b//" = Path.Parsed "/" "/a" "b" "" "b".
Proof. vm_refl. Qed.

Example format_parse : Path.format (Path.parse "/data/thumbs/ab.png") = "/data/thumbs/ab.png".
Proof. vm_refl. Qed.

(** ** What [processFile] returns *)

#[local] Arguments Path.parse : simpl never.
#[local] Arguments Path.format : simpl never.
#[local] Arguments identify : simpl never.
#[local] Arguments includes : simpl never.
#[local] Arguments Z.ltb : simpl never.
#[local] Arguments String.append : simpl never.
#[local] Arguments firstn : simpl never.

Ltac run :=
  unfold processFile, process_body, generateThumbnail, getImageSize,
    readChunk, read_file, statAsync, readdirAsync, ensureDirAsync, write_file,
    winston_error, winston_log, try_catch, bind, ret, throw, of_outcome in *.

(** Case analysis on the innermost test an evaluation is stuck on. *)
Ltac stuck_in H :=
  match type of H with
  | context [match ?x with _ => _ end] =>
      lazymatch x with
      | context [match _ with _ => _ end] => fail
      | _ => destruct x eqn:?
      end
  end.

Ltac known_in H :=
  repeat match goal with
  | E : ?x = _ |- _ =>
      lazymatch type of H with
      | context [match x with _ => _ end] => rewrite E in H; cbn in H
      end
  end.

Ltac eval_in H :=
  cbn in H; known_in H;
  repeat (stuck_in H; cbn in H; try discriminate H; known_in H).

Ltac use_eqs :=
  simplify_eq; cbn;
  repeat match goal with
  | E : ?x = _ |- context [?x] => rewrite E
  end; cbn.

Lemma process_body_record h fldName f w r w' :
  process_body h fldName f w = (Returned (JsRecord r), w') ->
  exists file,
    fs w !! fPath_of h fldName f = Some (Reg file) /\
    readable file = true /\
    _id r = identify fldName f /\
    mime r = mime_of h (fPath_of h fldName f) file /\
    folder r = "f:" ++ fldName /\
    filename r = f /\
    basename r = Path.name (Path.parse (fPath_of h fldName f)) /\
    filesize r = st_size file /\
    category r = (if is_image h (fPath_of h fldName f) file then image else binary) /\
    extra r = (if is_image h (fPath_of h fldName f) file
               then imageSize h (content file) else None).
Proof.
  unfold fPath_of, is_image, mime_of. run. intros H.
  eval_in H.
  all: simplify_eq; eexists; (split; [reflexivity || eassumption|]); use_eqs.
  all: by repeat split.
Qed.

Lemma process_body_value h fldName f w v w' :
  process_body h fldName f w = (Returned v, w') ->
  v = JsFalse \/ exists r, v = JsRecord r.
Proof.
  run. intros H. eval_in H. all: simplify_eq; eauto.
Qed.

(** [processFile] never rejects: either the [try] block returned, or it
    threw and the handler logged the error and returned what
    [winston.error] returned. *)
Lemma processFile_cases h fldName f w :
  let w0 := record (Log info (ProcessingFile fldName f)) w in
  (exists v w', process_body h fldName f w0 = (Returned v, w') /\
                processFile h fldName f w = (Returned v, w')) \/
  (exists e w', process_body h fldName f w0 = (Threw e, w') /\
                processFile h fldName f w
                = (Returned (js_of_logger_result (winston_error_result h)),
                   record (Log error (ProcessingError e)) w')).
Proof.
  intros w0. unfold processFile, winston_error, winston_log, try_catch, bind, ret.
  fold w0. destruct (process_body h fldName f w0) as [[v|e] w'] eqn:E; eauto.
Qed.

Lemma processFile_record h fldName f w r w' :
  processFile h fldName f w = (Returned (JsRecord r), w') ->
  process_body h fldName f (record (Log info (ProcessingFile fldName f)) w)
  = (Returned (JsRecord r), w').
Proof.
  intros H.
  destruct (processFile_cases h fldName f w)
    as [(v & w1 & Hb & Hp)|(e & w1 & Hb & Hp)]; rewrite Hp in H.
  - by simplify_eq.
  - destruct (winston_error_result h); simplify_eq/=.
Qed.

Lemma process_body_frame h fldName f w o w' :
  process_body h fldName f w = (o, w') -> same_catalog w w'.
Proof.
  unfold same_catalog, calls. run. intros H.
  eval_in H. all: by simplify_eq.
Qed.

Lemma processFile_frame h fldName f w o w' :
  processFile h fldName f w = (o, w') -> same_catalog w w'.
Proof.
  intros H.
  destruct (processFile_cases h fldName f w)
    as [(v & w1 & Hb & Hp)|(e & w1 & Hb & Hp)];
    rewrite Hp in H; simplify_eq; apply process_body_frame in Hb;
    unfold same_catalog, calls in *; simpl in *; done.
Qed.

Lemma includes_In l x : includes l x = true <-> In x l.
Proof.
  unfold includes. rewrite existsb_exists. split.
  - intros (y & Hy & E). apply String.eqb_eq in E. by subst.
  - intros H. exists x. split; [done | apply String.eqb_refl].
Qed.

(** Evaluation of a goal with the tests that the hypotheses decide. *)
Ltac eval_goal :=
  cbn;
  repeat match goal with
  | E : ?x = _ |- context [match ?x with _ => _ end] => rewrite E; cbn
  end.

(** ** Category decision *)

(** C1: a document returned by [processFile] has category [image] exactly
    when its MIME type is one of the four image types and its size is
    below 3145728; an image/png file of exactly 3145728 bytes is [binary],
    one of 3145727 bytes is [image]; a regular readable file of 3145728
    bytes or more is not skipped but yields a [binary] document without
    [extra]. *)
Theorem category_decision h fldName f w :
  let fPath := fPath_of h fldName f in
  (forall r w', processFile h fldName f w = (Returned (JsRecord r), w') ->
     exists file,
       fs w !! fPath = Some (Reg file) /\
       mime r = mime_of h fPath file /\
       filesize r = st_size file /\
       (category r = image <->
        In (mime r) image_mimes /\ (filesize r < 3145728)%Z) /\
       (category r = binary -> extra r = None) /\
       (mime r = "image/png" -> filesize r = 3145728%Z -> category r = binary) /\
       (mime r = "image/png" -> filesize r = 3145727%Z -> category r = image)) /\
  (forall file,
     fs w !! fPath = Some (Reg file) -> readable file = true ->
     (3145728 <= st_size file)%Z ->
     exists r w',
       processFile h fldName f w = (Returned (JsRecord r), w') /\
       category r = binary /\ extra r = None /\
       mime r = mime_of h fPath file /\ filesize r = st_size file).
Proof.
  intros fPath. split.
  - intros r w' H. apply processFile_record, process_body_record in H.
    destruct H as (file & Hfs & _ & _ & Hm & _ & _ & _ & Hs & Hc & He).
    exists file. fold fPath in Hm, Hc, He. simpl in Hfs.
    assert (Hiff : category r = image <->
                   In (mime r) image_mimes /\ (filesize r < 3145728)%Z).
    { rewrite Hc, Hm, Hs. unfold is_image.
      rewrite <- includes_In, <- Z.ltb_lt.
      destruct (st_size file <? 3145728)%Z, (includes image_mimes _);
        simpl; intuition congruence. }
    repeat split; try tauto; try done.
    + intros Hb. rewrite He. destruct (is_image h fPath file); [congruence | done].
    + intros Hp Hsz. destruct (category r) eqn:E; [|done].
      destruct Hiff as [Hi _]. specialize (Hi eq_refl). lia.
    + intros Hp Hsz. apply Hiff. split; [rewrite Hp; simpl; tauto | lia].
  - intros file Hfs Hr Hsz.
    assert (Hlt : (st_size file <? 3145728)%Z = false) by lia.
    unfold fPath, fPath_of in Hfs.
    eexists _, _. split.
    + run. eval_goal. reflexivity.
    + by repeat split.
Qed.

Lemma category_decision_witness :
  (exists w',
     processFile Sample.host "" "edge.png" Sample.tree
     = (Returned (JsRecord Sample.edge_doc), w') /\
     category Sample.edge_doc = image) /\
  (exists r w',
     processFile Sample.host "" "big.png" Sample.tree = (Returned (JsRecord r), w') /\
     category r = binary /\ extra r = None /\ filesize r = 3145728%Z).
Proof.
  split.
  - eexists. split; [vm_run|].
    destruct (category_decision Sample.host "" "edge.png" Sample.tree)
      as [Hrec _].
    edestruct (Hrec Sample.edge_doc) as (file & _ & _ & _ & _ & _ & _ & Himg);
      [vm_run|].
    apply Himg; reflexivity.
  - destruct (category_decision Sample.host "" "big.png" Sample.tree)
      as [_ Hbig].
    destruct (Hbig {| st_size := 3145728;
                      content := Sample.png_magic ++ [400; 100]%Z;
                      readable := true |})
      as (r & w' & E & Hc & He & _ & Hs);
      [vm_refl | reflexivity | simpl; lia |].
    exists r, w'. auto.
Defined.

(** ** Identifiers *)

Lemma length_le_bytes n x : length (Md5.le_bytes n x) = n.
Proof. unfold Md5.le_bytes. by rewrite List.length_map, List.length_seq. Qed.

Lemma length_digest msg : length (Md5.digest msg) = 16%nat.
Proof.
  unfold Md5.digest. cbv zeta.
  by rewrite !List.length_app, !length_le_bytes.
Qed.

Lemma length_hex bs : String.length (hex bs) = (2 * length bs)%nat.
Proof. induction bs as [|b bs IH]; simpl; [done | rewrite IH; lia]. Qed.

Lemma identify_length fldName f : String.length (identify fldName f) = 32%nat.
Proof. unfold identify, md5_hex. by rewrite length_hex, length_digest. Qed.

(** C2: the identifier of a document depends on the folder name and the
    file name only.  Two runs of [processFile] on the same pair, on any
    two hosts (paths, libraries) and in any two worlds, give documents
    with the same [_id], namely the hex MD5 digest of
    [fldName + "/" + f], 32 digits long. *)
Theorem identifier_deterministic h1 h2 fldName f w1 w2 r1 r2 w1' w2' :
  processFile h1 fldName f w1 = (Returned (JsRecord r1), w1') ->
  processFile h2 fldName f w2 = (Returned (JsRecord r2), w2') ->
  _id r1 = _id r2 /\
  _id r1 = md5_hex (fldName ++ "/" ++ f) /\
  String.length (_id r1) = 32%nat.
Proof.
  intros H1 H2.
  apply processFile_record, process_body_record in H1, H2.
  destruct H1 as (_ & _ & _ & E1 & _), H2 as (_ & _ & _ & E2 & _).
  rewrite E1, E2. split; [done|]. split; [done|]. apply identify_length.
Qed.

Lemma identifier_deterministic_witness :
  exists w1' w2',
    processFile Sample.host "a" "y.txt" Sample.tree
    = (Returned (JsRecord (Sample.y_doc 2)), w1') /\
    processFile Sample.other_host "a" "y.txt" Sample.other_tree
    = (Returned (JsRecord (Sample.y_doc 77)), w2') /\
    _id (Sample.y_doc 2) = _id (Sample.y_doc 77) /\
    _id (Sample.y_doc 2) = md5_hex "a/y.txt".
Proof.
  eexists _, _. split; [vm_run|]. split; [vm_run|].
  edestruct (identifier_deterministic Sample.host Sample.other_host "a" "y.txt"
               Sample.tree Sample.other_tree (Sample.y_doc 2) (Sample.y_doc 77))
    as (Heq & Hmd5 & _); [vm_run | vm_run |].
  split; [exact Heq | exact Hmd5].
Defined.

(** ** Root-level paths *)

Lemma get_bare p i : bare p = true -> Path.is_char "/" (String.get i p) = false.
Proof.
  revert i. induction p as [|c p IH]; intros i H; simpl in *; [done|].
  apply andb_true_iff in H as [Hc Hp].
  destruct i; simpl; [by apply negb_true_iff in Hc | by apply IH].
Qed.

Lemma substring_all s : String.substring 0 (String.length s) s = s.
Proof. induction s as [|c s IH]; simpl; [done | by rewrite IH]. Qed.

(** On a path without separator the scan never leaves the last component:
    [startPart] stays, and [end_] is set at the first index visited. *)
Lemma parse_loop_bare p n st :
  bare p = true ->
  let st' := Path.parse_loop p 0 n st in
  Path.startPart st' = Path.startPart st /\
  Path.end_ st' =
    (if (Path.end_ st =? -1)%Z then (if n is O then (-1)%Z else Z.of_nat n)
     else Path.end_ st).
Proof.
  intros Hb. revert st. induction n as [|n IH]; intros st; cbn zeta.
  - simpl. split; [done|]. by destruct (Path.end_ st =? -1)%Z eqn:E; [apply Z.eqb_eq in E|].
  - cbn [Path.parse_loop]. cbv zeta. unfold Path.charCodeAt.
    rewrite get_bare by done.
    match goal with |- context [Path.parse_loop p 0 n ?s] =>
      destruct (IH s) as [IH1 IH2]; rewrite IH1, IH2 end.
    destruct (Path.end_ st =? -1)%Z eqn:E.
    + repeat case_match; simpl in *; try (split; [done|]); try lia.
    + repeat case_match; simpl in *; try rewrite E in *; try (split; [done|]); try lia.
Qed.

Lemma parse_bare_path p :
  bare p = true ->
  Path.dir (Path.parse p) = "" /\ Path.base (Path.parse p) = p.
Proof.
  intros Hb. unfold Path.parse.
  destruct (String.length p =? 0)%nat eqn:El.
  - apply Nat.eqb_eq in El. destruct p; [done | discriminate].
  - apply Nat.eqb_neq in El.
    assert (Habs : Path.is_char "/" (Path.charCodeAt p 0) = false)
      by apply (get_bare p _ Hb).
    cbv zeta. rewrite !Habs.
    destruct (parse_loop_bare p (Z.to_nat (Z.of_nat (String.length p) - 0))
                (Path.Scan (-1) 0 (-1) true 0) Hb) as [Hsp Hend].
    simpl in Hsp, Hend.
    set (st := Path.parse_loop p 0 _ _) in *.
    rewrite Z.sub_0_r, Nat2Z.id in Hend.
    destruct (String.length p) as [|n] eqn:En; [done|].
    rewrite Hsp, Hend. rewrite andb_false_r.
    assert (Hs : Path.slice p 0 (Z.of_nat (S n)) = p).
    { unfold Path.slice. rewrite Z.sub_0_r, Nat2Z.id. simpl Z.to_nat.
      rewrite <- En. apply substring_all. }
    replace (negb (Z.of_nat (S n) =? -1)%Z) with true
      by (symmetry; apply negb_true_iff, Z.eqb_neq; lia).
    rewrite Hs. simpl (0 >? 0)%Z. cbv iota.
    by destruct (_ || _).
Qed.

(** C10: for an upload path without directory component the watcher's
    parsing gives the folder [""] and the path itself as file name, so the
    watcher runs [processFile] with the arguments the initial scan uses
    for that file in the root folder; a document it yields has the
    identifier [identify "" p] and the folder key ["f:"], which is the
    [_id] of the root folder document the scan inserts. *)
Theorem root_level_paths_agree p :
  bare p = true ->
  parseUploadsRelPath p = ("", p) /\
  (forall h w,
     processFile h (fst (parseUploadsRelPath p)) (snd (parseUploadsRelPath p)) w
     = processFile h "" p w) /\
  (forall h w r w',
     processFile h (fst (parseUploadsRelPath p)) (snd (parseUploadsRelPath p)) w
     = (Returned (JsRecord r), w') ->
     _id r = identify "" p /\
     folder r = "f:" /\
     folder r = FolderDoc._id (folder_doc "") /\
     filename r = p).
Proof.
  intros Hb.
  assert (Hp : parseUploadsRelPath p = ("", p)).
  { unfold parseUploadsRelPath. cbv zeta.
    destruct (parse_bare_path p Hb) as [-> ->]. done. }
  rewrite Hp. simpl fst. simpl snd. split; [done|]. split; [done|].
  intros h w r w' H.
  apply processFile_record, process_body_record in H.
  destruct H as (_ & _ & _ & Hid & _ & Hf & Hn & _).
  rewrite Hid, Hf, Hn. done.
Qed.

Lemma root_level_paths_agree_witness :
  bare "x.png" = true /\
  parseUploadsRelPath "x.png" = ("", "x.png") /\
  exists w',
    processFile Sample.host (fst (parseUploadsRelPath "x.png"))
      (snd (parseUploadsRelPath "x.png")) Sample.tree
    = (Returned (JsRecord Sample.x_doc), w') /\
    _id Sample.x_doc = identify "" "x.png" /\ folder Sample.x_doc = "f:".
Proof.
  assert (Hb : bare "x.png" = true) by reflexivity.
  destruct (root_level_paths_agree "x.png" Hb) as (Hp & Hsame & Hrec).
  split; [exact Hb|]. split; [exact Hp|].
  eexists. split; [vm_run|].
  edestruct (Hrec Sample.host Sample.tree Sample.x_doc) as (Hid & Hf & _);
    [vm_run|].
  split; [exact Hid | exact Hf].
Defined.

(** A path with a directory component is split at the last separator. *)
Example parse_rel_nested : parseUploadsRelPath "a/y.txt" = ("a", "y.txt").
Proof. vm_refl. Qed.

(** ** The 'unlink' handler *)

(** C9: the handler of 'unlink' only records the "deleted" commit for the
    path; the file collection, the folder collection, the file system
    (and with it the thumbnail cache) and the watcher are as before. *)
Theorem unlink_only_commits p w :
  exists w',
    on_unlink p w = (Returned JsUndefined, w') /\
    trace w' = CommitUploads (Deleted p) :: trace w /\
    UplFile w' = UplFile w /\
    UplFolder w' = UplFolder w /\
    fs w' = fs w /\
    _watcher w' = _watcher w.
Proof.
  unfold on_unlink, git_commitUploads. eexists. split; [reflexivity|]. done.
Qed.

(** ** The 'add' handler *)

Lemma upsert_fresh id r c :
  (forall x, In x c -> _id x <> id) -> upsertById id r c = (c ++ [r])%list.
Proof.
  induction c as [|x c IH]; intros H; simpl; [done|].
  destruct (String.eqb (_id x) id) eqn:E.
  - apply String.eqb_eq in E. exfalso. apply (H x); [by left | done].
  - rewrite IH; [done|]. intros y Hy. apply H. by right.
Qed.

Lemma upsert_again id r r' c :
  _id r = id -> upsertById id r' (upsertById id r c) = upsertById id r' c.
Proof.
  intros Hid. induction c as [|x c IH]; simpl.
  - by rewrite Hid, String.eqb_refl.
  - destruct (String.eqb (_id x) id) eqn:E; simpl.
    + by rewrite Hid, String.eqb_refl.
    + by rewrite E, IH.
Qed.

Lemma upsert_length_again id r r' c :
  _id r = id ->
  length (upsertById id r' (upsertById id r c)) = length (upsertById id r c).
Proof.
  intros Hid. induction c as [|x c IH]; simpl.
  - by rewrite Hid, String.eqb_refl.
  - destruct (String.eqb (_id x) id) eqn:E; simpl.
    + by rewrite Hid, String.eqb_refl.
    + rewrite E. simpl. by rewrite IH.
Qed.

(** The handler on a path whose processing yields a document. *)
Lemma on_add_record h p w r w1 :
  processFile h (fst (parseUploadsRelPath p)) (snd (parseUploadsRelPath p)) w
  = (Returned (JsRecord r), w1) ->
  on_add h p w
  = (Returned JsUndefined,
     record (CommitUploads (Uploaded p))
       (set_UplFile (upsertById (_id r) r (UplFile w1))
          (record (FileFindByIdAndUpdate (JsString (_id r)) (JsRecord r)) w1))).
Proof.
  intros H. unfold on_add. cbv zeta. unfold bind at 1. rewrite H.
  reflexivity.
Qed.

(** C3: when the path of an 'add' event processes to a document, the
    handler upserts it under its identifier, [identify] of the folder and
    file name of the path, and then records the "uploaded" commit.  If no
    document of the collection had that identifier, the collection is the
    old one with the new document appended; a second 'add' for the same
    path that processes to a document again replaces that document, and
    the collection keeps its length. *)
Theorem add_upserts h p w r w1 :
  let pInfo := parseUploadsRelPath p in
  processFile h (fst pInfo) (snd pInfo) w = (Returned (JsRecord r), w1) ->
  exists w2,
    on_add h p w = (Returned JsUndefined, w2) /\
    _id r = identify (fst pInfo) (snd pInfo) /\
    UplFile w2 = upsertById (_id r) r (UplFile w) /\
    trace w2 = CommitUploads (Uploaded p)
               :: FileFindByIdAndUpdate (JsString (_id r)) (JsRecord r)
               :: trace w1 /\
    ((forall x, In x (UplFile w) -> _id x <> _id r) ->
     UplFile w2 = (UplFile w ++ [r])%list) /\
    (forall r' w3,
       processFile h (fst pInfo) (snd pInfo) w2 = (Returned (JsRecord r'), w3) ->
       exists w4,
         on_add h p w2 = (Returned JsUndefined, w4) /\
         _id r' = _id r /\
         UplFile w4 = upsertById (_id r) r' (UplFile w) /\
         length (UplFile w4) = length (UplFile w2) /\
         ((forall x, In x (UplFile w) -> _id x <> _id r) ->
          (UplFile w4 = (UplFile w ++ [r'])%list))).
Proof.
  intros pInfo H.
  pose proof (on_add_record h p w r w1 H) as Hadd.
  pose proof (processFile_frame _ _ _ _ _ _ H) as (Hf & _).
  pose proof H as Hrec. apply processFile_record, process_body_record in Hrec.
  destruct Hrec as (_ & _ & _ & Hid & _).
  eexists. split; [exact Hadd|]. simpl. rewrite Hf.
  split; [exact Hid|]. split; [done|]. split; [done|].
  split; [apply upsert_fresh|].
  intros r' w3 H'.
  pose proof (on_add_record h p _ r' w3 H') as Hadd'.
  pose proof (processFile_frame _ _ _ _ _ _ H') as (Hf' & _).
  pose proof H' as Hrec'. apply processFile_record, process_body_record in Hrec'.
  destruct Hrec' as (_ & _ & _ & Hid' & _).
  assert (Hsame : _id r' = _id r) by (rewrite Hid, Hid'; reflexivity).
  simpl in Hf'.
  eexists. split; [exact Hadd'|]. simpl. rewrite Hf'.
  rewrite Hsame. split; [done|].
  split; [by apply upsert_again|].
  split; [by apply upsert_length_again|].
  intros Hfresh. rewrite upsert_again by done. by apply upsert_fresh.
Qed.

Lemma add_upserts_witness :
  exists w1 w2,
    processFile Sample.host (fst (parseUploadsRelPath "a/y.txt"))
      (snd (parseUploadsRelPath "a/y.txt")) Sample.tree
    = (Returned (JsRecord (Sample.y_doc 2)), w1) /\
    on_add Sample.host "a/y.txt" Sample.tree = (Returned JsUndefined, w2) /\
    UplFile w2 = [Sample.y_doc 2].
Proof.
  eexists _. 
  edestruct (add_upserts Sample.host "a/y.txt" Sample.tree (Sample.y_doc 2))
    as (w2 & Hadd & _ & _ & _ & Hfresh & _); [vm_run|].
  exists w2. split; [vm_run|]. split; [exact Hadd|].
  apply (Hfresh (fun x (Hx : In x []) => False_ind _ Hx)).
Defined.

(** When the [try] block of [processFile] throws and [winston.error]
    returns nothing, [mData] is [undefined]: reading [mData._id] throws,
    the handler's promise is rejected, and neither the catalog nor git is
    called. *)
Lemma on_add_after_error h p w e w1 :
  winston_error_result h = Nothing ->
  process_body h (fst (parseUploadsRelPath p)) (snd (parseUploadsRelPath p))
    (record (Log info (ProcessingFile (fst (parseUploadsRelPath p))
                                      (snd (parseUploadsRelPath p)))) w)
  = (Threw e, w1) ->
  on_add h p w = (Threw TypeError, record (Log error (ProcessingError e)) w1) /\
  calls (record (Log error (ProcessingError e)) w1) = calls w.
Proof.
  intros Hn Hb.
  destruct (processFile_cases h (fst (parseUploadsRelPath p))
              (snd (parseUploadsRelPath p)) w)
    as [(v & w' & Hb' & _)|(e' & w' & Hb' & Hp)];
    rewrite Hb in Hb'; simplify_eq.
  split.
  - unfold on_add. cbv zeta. unfold bind at 1. rewrite Hp, Hn. reflexivity.
  - apply process_body_frame in Hb. destruct Hb as (_ & _ & _ & Hc).
    unfold calls in *. simpl in *. done.
Qed.

(** With a [winston.error] that returns the logger, [mData._id] is
    [undefined] and the catalog is asked to upsert the logger under it. *)
Lemma on_add_after_error_logger h p w e w1 o w2 :
  winston_error_result h = TheLogger ->
  process_body h (fst (parseUploadsRelPath p)) (snd (parseUploadsRelPath p))
    (record (Log info (ProcessingFile (fst (parseUploadsRelPath p))
                                      (snd (parseUploadsRelPath p)))) w)
  = (Threw e, w1) ->
  on_add h p w = (o, w2) ->
  In (FileFindByIdAndUpdate JsUndefined JsLogger) (trace w2).
Proof.
  intros Hn Hb.
  destruct (processFile_cases h (fst (parseUploadsRelPath p))
              (snd (parseUploadsRelPath p)) w)
    as [(v & w' & Hb' & _)|(e' & w' & Hb' & Hp)];
    rewrite Hb in Hb'; simplify_eq.
  unfold on_add. cbv zeta. unfold bind at 1. rewrite Hp, Hn. cbn.
  unfold UplFile_findByIdAndUpdate, git_commitUploads, bind. cbn.
  destruct (upsert_other h _ _ _); intros ?; simplify_eq; cbn; auto.
Qed.

(** When [processFile] returns [false], the handler does not stop: it
    asks the catalog to upsert [false] under [undefined]. *)
Lemma on_add_after_skip h p w w1 o w2 :
  processFile h (fst (parseUploadsRelPath p)) (snd (parseUploadsRelPath p)) w
  = (Returned JsFalse, w1) ->
  on_add h p w = (o, w2) ->
  In (FileFindByIdAndUpdate JsUndefined JsFalse) (trace w2).
Proof.
  intros Hp. unfold on_add. cbv zeta. unfold bind at 1. rewrite Hp. cbn.
  unfold UplFile_findByIdAndUpdate, git_commitUploads, bind. cbn.
  destruct (upsert_other h _ _ _); intros ?; simplify_eq; cbn; auto.
Qed.

(** Whatever [winston.error] returns, an 'add' whose processing throws
    never ends with the catalog left alone and the commit recorded. *)
Lemma on_add_failure h p w e w1 o w2 :
  process_body h (fst (parseUploadsRelPath p)) (snd (parseUploadsRelPath p))
    (record (Log info (ProcessingFile (fst (parseUploadsRelPath p))
                                      (snd (parseUploadsRelPath p)))) w)
  = (Threw e, w1) ->
  on_add h p w = (o, w2) ->
  (o = Threw TypeError /\ calls w2 = calls w) \/
  In (FileFindByIdAndUpdate JsUndefined JsLogger) (trace w2).
Proof.
  intros Hb Ha. destruct (winston_error_result h) eqn:Hn.
  - left. destruct (on_add_after_error h p w e w1 Hn Hb) as [Hadd Hc].
    rewrite Hadd in Ha. by simplify_eq.
  - right. by eapply on_add_after_error_logger.
Qed.

(** C4, on the code: an 'add' for a file that cannot be processed.  The
    file [a/bad.png] has no image header, image-size rejects it,
    [processFile] logs the error and returns [undefined]; the handler
    throws on [mData._id], and no "uploaded" commit is recorded. *)
Theorem add_of_broken_file_records_no_commit :
  exists w',
    on_add Sample.host "a/bad.png" Sample.tree = (Threw TypeError, w') /\
    trace w' = [Log error (ProcessingError (BadImage "/repo/uploads/a/bad.png"));
                Log info (ProcessingFile "a" "bad.png")] /\
    calls w' = [] /\
    UplFile w' = UplFile Sample.tree.
Proof.
  eexists. split; [vm_run|]. split; [vm_refl|]. split; vm_refl.
Qed.

(** An 'add' for something that is not a regular file: the catalog is
    called all the same, and on this host it rejects the call. *)
Example add_of_directory :
  exists w',
    on_add Sample.host "a" Sample.tree = (Threw CatalogError, w') /\
    trace w' = [FileFindByIdAndUpdate JsUndefined JsFalse;
                Log info (NotAFile "/repo/uploads/a");
                Log info (ProcessingFile "" "a")].
Proof. eexists. split; [vm_run | vm_refl]. Qed.

(** ** Thumbnails *)

(** An image document carries the dimensions image-size reported. *)
Lemma process_body_image_dims h fldName f w r w' :
  process_body h fldName f w = (Returned (JsRecord r), w') ->
  category r = image ->
  exists file d,
    fs w !! fPath_of h fldName f = Some (Reg file) /\
    imageSize h (content file) = Some d /\ extra r = Some d.
Proof.
  unfold fPath_of. run. intros H Hc.
  eval_in H.
  all: simplify_eq; try discriminate Hc.
  all: eexists _, _; (split; [reflexivity || eassumption|]); by split.
Qed.

(** With the thumbnail in place, [processFile] only reads and logs. *)
Lemma processFile_with_thumbnail h fldName f w1 w1' r w2 :
  processFile h fldName f w1 = (Returned (JsRecord r), w1') ->
  category r = image ->
  fs w2 !! fPath_of h fldName f = fs w1 !! fPath_of h fldName f ->
  (exists t, fs w2 !! thumb_path h fldName f = Some (Reg t)) ->
  processFile h fldName f w2
  = (Returned (JsRecord r),
     record (Log info (GeneratingThumbnail fldName f))
       (record (Log info (ProcessingFile fldName f)) w2)) /\
  exists d, extra r = Some d.
Proof.
  intros H Hc Hsame (t & Ht).
  apply processFile_record in H.
  destruct (process_body_image_dims _ _ _ _ _ _ H Hc) as (file & d & Hfs & Hd & He).
  apply process_body_record in H.
  destruct H as (file' & Hfs' & Hr & Hid & Hm & Hfo & Hfn & Hbn & Hsz & Hcat & _).
  rewrite Hfs in Hfs'. injection Hfs' as <-. simpl in Hfs.
  rewrite <- Hsame in Hfs.
  assert (Hi : is_image h (fPath_of h fldName f) file = true)
    by (destruct (is_image _ _ _); [done | congruence]).
  unfold is_image in Hi. apply andb_true_iff in Hi as [Hlt Hinc].
  unfold mime_of, fPath_of in *. unfold thumb_path in Ht.
  split; [|eauto].
  run. eval_goal.
  destruct r; simpl in *; subst. rewrite Hc. reflexivity.
Qed.

(** C8: once the thumbnail of an image file is a regular file at its
    cache path and the file itself is as it was, [processFile] returns
    the document it returned before, with the dimensions under [extra],
    and does nothing but log: jimp is not called and the file system is
    not touched. *)
Theorem thumbnail_not_regenerated h fldName f w1 w1' r w2 :
  processFile h fldName f w1 = (Returned (JsRecord r), w1') ->
  category r = image ->
  fs w2 !! fPath_of h fldName f = fs w1 !! fPath_of h fldName f ->
  (exists t, fs w2 !! thumb_path h fldName f = Some (Reg t)) ->
  processFile h fldName f w2
  = (Returned (JsRecord r),
     record (Log info (GeneratingThumbnail fldName f))
       (record (Log info (ProcessingFile fldName f)) w2)) /\
  exists d, extra r = Some d.
Proof. apply processFile_with_thumbnail. Qed.
#[local] Arguments add_entry : simpl never.

(** A new directory entry changes a directory node only. *)
Lemma add_entry_reg p g k x :
  g !! k = Some (Reg x) -> add_entry p g !! k = Some (Reg x).
Proof.
  intros Hk. unfold add_entry. cbv zeta.
  destruct (g !! Path.dir (Path.parse p)) as [[entries| |]|] eqn:E; try done.
  destruct (existsb _ _); [done|].
  rewrite lookup_insert_ne; [done|]. intros Heq. rewrite Heq in E. congruence.
Qed.

Lemma add_entry_none p g k :
  g !! k = None -> add_entry p g !! k = None.
Proof.
  intros Hk. unfold add_entry. cbv zeta.
  destruct (g !! Path.dir (Path.parse p)) as [[entries| |]|] eqn:E; try done.
  destruct (existsb _ _); [done|].
  rewrite lookup_insert_ne; [done|]. intros Heq. rewrite Heq in E. congruence.
Qed.

(** Case analysis on the keys of the lookups in updated maps. *)
Ltac map_cases :=
  simplify_map_eq;
  repeat (match goal with
          | |- context [<[?a := _]> _ !! ?b] =>
              destruct (decide (a = b)) as [->|?]
          | H : context [<[?a := _]> _ !! ?b] |- _ =>
              destruct (decide (a = b)) as [->|?]
          end; simplify_map_eq).

Lemma process_body_image_thumb h fldName f w r w' :
  process_body h fldName f w = (Returned (JsRecord r), w') ->
  category r = image ->
  thumb_path h fldName f <> fPath_of h fldName f ->
  fs w !! thumb_path h fldName f <> Some Special ->
  fs w' !! fPath_of h fldName f = fs w !! fPath_of h fldName f /\
  exists t, fs w' !! thumb_path h fldName f = Some (Reg t).
Proof.
  unfold fPath_of, thumb_path. run. cbv zeta.
  remember (path_join h (path_join h (_uploadsPath h) fldName) f) as P eqn:EP.
  remember (Path.parse (path_join h (_uploadsThumbsPath h)
                          (identify fldName f ++ ".png"))) as tp eqn:Etp.
  remember (Path.format tp) as T eqn:ET.
  remember (Path.dir tp) as D eqn:ED.
  clear EP Etp ET ED.
  intros H Hc Hne Hsp.
  eval_in H.
  all: simplify_eq; try discriminate Hc.
  all: cbn [fs set_fs record] in *.
  all: map_cases; try done.
  all: try (split; [done|]; destruct n0; simpl in *; by eauto).
  all: split; [apply add_entry_reg; map_cases; congruence | by eauto].
Qed.

(** Two calls in a row: when the cache path of the thumbnail is not the
    path of the file itself and holds no device, the first call leaves the
    thumbnail in place and the second one returns the same document
    without calling jimp or touching the file system. *)
Corollary processFile_twice h fldName f w r w1 :
  processFile h fldName f w = (Returned (JsRecord r), w1) ->
  category r = image ->
  thumb_path h fldName f <> fPath_of h fldName f ->
  fs w !! thumb_path h fldName f <> Some Special ->
  processFile h fldName f w1
  = (Returned (JsRecord r),
     record (Log info (GeneratingThumbnail fldName f))
       (record (Log info (ProcessingFile fldName f)) w1)).
Proof.
  intros H Hc Hne Hsp.
  pose proof (processFile_record _ _ _ _ _ _ H) as Hb.
  destruct (process_body_image_thumb _ _ _ _ _ _ Hb Hc Hne Hsp) as [Hsame Ht].
  simpl in Hsame.
  by destruct (processFile_with_thumbnail h fldName f w w1 r w1 H Hc Hsame Ht).
Qed.

Lemma thumbnail_not_regenerated_witness :
  exists w1,
    processFile Sample.host "" "x.png" Sample.tree
    = (Returned (JsRecord Sample.x_doc), w1) /\
    trace w1 = [JimpWrite "/data/thumbs/62e42601dbaa60e34469e4dd0e29bbd9.png";
                JimpRead "/repo/uploads/x.png";
                Log info (GeneratingThumbnail "" "x.png");
                Log info (ProcessingFile "" "x.png")] /\
    processFile Sample.host "" "x.png" w1
    = (Returned (JsRecord Sample.x_doc),
       record (Log info (GeneratingThumbnail "" "x.png"))
         (record (Log info (ProcessingFile "" "x.png")) w1)).
Proof.
  eexists. split; [vm_run|]. split; [vm_refl|].
  eapply (thumbnail_not_regenerated Sample.host "" "x.png" Sample.tree).
  - vm_run.
  - reflexivity.
  - vm_refl.
  - exists Sample.thumb_file. vm_refl.
Defined.

(** ** The initial scan *)



(** A relation that every run of the mapper respects holds across the
    whole map, whether it returns or throws. *)
Lemma promise_map_respects {S A B} (R : S -> S -> Prop) (f : A -> M S B) :
  (forall s, R s s) ->
  (forall s1 s2 s3, R s1 s2 -> R s2 s3 -> R s1 s3) ->
  (forall x s o s', f x s = (o, s') -> R s s') ->
  forall l s o s', promise_map f l s = (o, s') -> R s s'.
Proof.
  intros Hrefl Htrans Hf. induction l as [|x l IH]; intros s o s'; simpl.
  - unfold ret. intros H. simplify_eq. apply Hrefl.
  - unfold bind at 1. destruct (f x s) as [[y|e] s1] eqn:E1.
    + unfold bind at 1.
      destruct (promise_map f l s1) as [[zs|e] s2] eqn:E2;
        unfold ret; intros H; simplify_eq;
        (eapply Htrans; [by eapply Hf | by eapply IH]).
    + intros H. simplify_eq. by eapply Hf.
Qed.

Lemma pushed_records_same s s' : allFiles s' = allFiles s -> pushed_records s s'.
Proof. intros H. exists []. simpl. by rewrite app_nil_r. Qed.

Lemma pushed_records_refl s : pushed_records s s.
Proof. by apply pushed_records_same. Qed.

Lemma pushed_records_trans s1 s2 s3 :
  pushed_records s1 s2 -> pushed_records s2 s3 -> pushed_records s1 s3.
Proof.
  intros [rs1 H1] [rs2 H2]. exists (rs1 ++ rs2)%list.
  by rewrite H2, H1, map_app, app_assoc.
Qed.

Lemma as_records_map rs : as_records (map JsRecord rs) = Some rs.
Proof. induction rs as [|r rs IH]; simpl; [done | by rewrite IH]. Qed.

(** What [processFile] can return. *)
Lemma processFile_value h fldName f w :
  exists v w',
    processFile h fldName f w = (Returned v, w') /\
    (v = JsFalse \/ (exists r, v = JsRecord r) \/
     v = js_of_logger_result (winston_error_result h)).
Proof.
  destruct (processFile_cases h fldName f w)
    as [(v & w' & Hb & Hp)|(e & w' & Hb & Hp)]; rewrite Hp.
  - eexists _, _. split; [done|].
    destruct (process_body_value _ _ _ _ _ _ Hb); auto.
  - eexists _, _. split; [done|]. auto.
Qed.

(** The mapper over the files never throws; with a [winston.error] that
    returns nothing it pushes a document or nothing. *)
Lemma scan_file_returns h fldName f s :
  exists s', scan_file h fldName f s = (Returned tt, s') /\
             (winston_error_result h = Nothing -> pushed_records s s').
Proof.
  unfold scan_file, lift, push, winston_log, bind.
  destruct (processFile_value h fldName f (world s)) as (v & w' & Hp & Hv).
  rewrite Hp.
  destruct Hv as [->|[[r ->]| ->]]; simpl.
  - eexists. split; [done|]. intros _. by apply pushed_records_same.
  - eexists. split; [done|]. intros _. by exists [r].
  - destruct (winston_error_result h); simpl.
    + eexists. split; [done|]. intros _. by apply pushed_records_same.
    + eexists. split; [done|]. discriminate.
Qed.

Lemma scan_files_return h fldName l s :
  exists us s',
    promise_map (scan_file h fldName) l s = (Returned us, s') /\
    (winston_error_result h = Nothing -> pushed_records s s').
Proof.
  revert s. induction l as [|f l IH]; intros s; simpl.
  - eexists _, _. split; [done|]. intros _. apply pushed_records_refl.
  - unfold bind at 1.
    destruct (scan_file_returns h fldName f s) as (s1 & -> & H1).
    unfold bind at 1.
    destruct (IH s1) as (us & s2 & -> & H2).
    eexists _, _. split; [done|]. intros Hn.
    eapply pushed_records_trans; eauto.
Qed.



(** The whole scan on that folder: four documents in the collection, the
    broken file logged and skipped, the watcher started. *)
Example scan_of_five :
  exists w',
    initialScan Sample.host Sample.five = (Returned JsUndefined, w') /\
    map filename (UplFile w') = ["1.png"; "2.txt"; "4.txt"; "5.png"] /\
    error_log w'
    = [SkippingFile "3.png"; ProcessingError (BadImage "/repo/uploads/3.png")] /\
    _watcher w' = Some "/repo/uploads".
Proof.
  eexists. split; [vm_run|]. split; [vm_refl|]. split; vm_refl.
Qed.

Lemma lift_allFiles {A} (m : M World A) s o s' :
  lift m s = (o, s') -> allFiles s' = allFiles s.
Proof.
  unfold lift. destruct (m (world s)) as [o' w']. intros H. by simplify_eq.
Qed.

Lemma scan_folder_pushes h fldName s o s' :
  winston_error_result h = Nothing ->
  scan_folder h fldName s = (o, s') -> pushed_records s s'.
Proof.
  intros Hn. unfold scan_folder. cbv zeta. unfold bind at 1.
  destruct (lift (winston_log info (TraversingDir fldName)) s)
    as [[[]|e] sa] eqn:Ea; [|discriminate Ea].
  apply lift_allFiles in Ea.
  unfold bind at 1.
  destruct (lift (readdirAsync _) sa) as [[fList|e] sb] eqn:Eb;
    apply lift_allFiles in Eb.
  - unfold bind at 1.
    destruct (lift (winston_log info (FilesFound fldName (length fList))) sb)
      as [[[]|e] sc] eqn:Ec; [|discriminate Ec].
    apply lift_allFiles in Ec.
    unfold bind at 1.
    destruct (scan_files_return h fldName fList sc) as (us & sd & -> & Hd).
    unfold ret. intros H. simplify_eq.
    destruct (Hd Hn) as [rs Hrs]. exists rs. congruence.
  - intros H. simplify_eq. apply pushed_records_same. congruence.
Qed.

(** The traversal of lines 110-124 settles, returning or throwing, with
    nothing but documents pushed to [allFiles]. *)
Lemma traversal_pushes h folderNames s o s' :
  winston_error_result h = Nothing ->
  (promise_map (scan_folder h) folderNames ;; ret tt) s = (o, s') ->
  pushed_records s s'.
Proof.
  intros Hn. unfold bind, ret.
  destruct (promise_map (scan_folder h) folderNames s) as [[us|e] s1] eqn:E;
    intros H; simplify_eq;
    (eapply (promise_map_respects pushed_records); [ | | | exact E];
     eauto using pushed_records_refl, pushed_records_trans, scan_folder_pushes).
Qed.

(** The [finally] block on an array of documents: the collection is
    emptied and then holds exactly those documents. *)
Lemma replace_files_records h s rs :
  allFiles s = map JsRecord rs ->
  replace_files h s
  = (Returned tt,
     {| world :=
          let w1 := record FileRemove (set_UplFile []
                      (record (Log info RemovingFiles) (world s))) in
          if (0 <? length rs)%nat then
            set_UplFile rs
              (record (FileInsertMany (map JsRecord rs))
                 (record (Log info (InsertingFiles (length rs))) w1))
          else record (Log info NoFiles) w1;
        allFiles := allFiles s |}).
Proof.
  intros Ha. unfold replace_files, lift, bind, winston_log, UplFile_remove,
    UplFile_insertMany. cbn. rewrite Ha, List.length_map.
  destruct rs as [|r rs]; cbn; [done|].
  by rewrite as_records_map.
Qed.

(** The block of lines 109-137 as a whole. *)
Lemma traverse_and_replace_settles h folderNames w :
  winston_error_result h = Nothing ->
  let s0 := {| world := w; allFiles := [] |} in
  exists o s1 rs s2,
    (promise_map (scan_folder h) folderNames ;; ret tt) s0 = (o, s1) /\
    allFiles s1 = map JsRecord rs /\
    traverse_and_replace h folderNames s0 = (Returned tt, s2) /\
    UplFile (world s2) = rs /\
    allFiles s2 = allFiles s1 /\
    fs (world s2) = fs (world s1) /\
    trace (world s2)
    = ((if (0 <? length rs)%nat
        then [FileInsertMany (map JsRecord rs);
              Log info (InsertingFiles (length rs))]
        else [Log info NoFiles])
       ++ FileRemove :: Log info RemovingFiles
       :: match o with
          | Threw e => [Log error (ScanError e)]
          | Returned _ => []
          end
       ++ trace (world s1))%list.
Proof.
  intros Hn s0.
  destruct ((promise_map (scan_folder h) folderNames ;; ret tt) s0)
    as [o s1] eqn:E.
  destruct (traversal_pushes h folderNames s0 o s1 Hn E) as [rs Hrs].
  simpl in Hrs.
  exists o, s1, rs.
  unfold traverse_and_replace, try_catch_finally, try_catch. rewrite E.
  destruct o as [[]|e].
  - eexists. split; [done|]. split; [done|].
    cbv beta iota zeta. rewrite (replace_files_records h s1 rs Hrs).
    split; [done|]. cbn. destruct rs; cbn; done.
  - eexists. split; [done|]. split; [done|].
    unfold lift at 1, winston_log. cbv beta iota zeta.
    erewrite replace_files_records by exact Hrs.
    split; [done|]. cbn. destruct rs; cbn; done.
Qed.



(** *** Start of the watcher *)

Lemma stat_all h ls w :
  (forall f, In f ls -> fs w !! path_join h (_uploadsPath h) f <> None) ->
  exists stats,
    promise_map
      (fun f =>
         let* s := statAsync (path_join h (_uploadsPath h) f) in ret (f, s))
      ls w
    = (Returned stats, w) /\
    length stats = length ls.
Proof.
  induction ls as [|f ls IH]; intros H; cbn [promise_map].
  - by exists [].
  - destruct IH as (stats & E & Hl); [intros; apply H; by right|].
    unfold bind at 1. unfold bind at 1, statAsync at 1.
    destruct (fs w !! path_join h (_uploadsPath h) f) as [n|] eqn:En;
      [|by destruct (H f); [left|]].
    unfold ret at 1. unfold bind at 1. rewrite E.
    eexists. split; [reflexivity|]. simpl. by rewrite Hl.
Qed.

Lemma stat_some_fails h ls w :
  (exists f, In f ls /\ fs w !! path_join h (_uploadsPath h) f = None) ->
  exists e,
    promise_map
      (fun f =>
         let* s := statAsync (path_join h (_uploadsPath h) f) in ret (f, s))
      ls w
    = (Threw e, w).
Proof.
  induction ls as [|f ls IH]; intros (g & Hin & Hg); [done|].
  cbn [promise_map]. unfold bind at 1. unfold bind at 1, statAsync at 1.
  destruct (fs w !! path_join h (_uploadsPath h) f) as [n|] eqn:En.
  - destruct Hin as [->|Hin]; [congruence|].
    destruct IH as (e & E); [by exists g|].
    unfold ret at 1. unfold bind at 1. rewrite E. by exists e.
  - by eexists.
Qed.

(** When the listing of the uploads folder fails, [initialScan] is
    rejected with that error: the [await] of line 85 stands before the
    [try] of line 86, so nothing is logged after the first message and
    the watcher is not started. *)
Lemma initialScan_root_listing_fails h w :
  (forall entries, fs w !! _uploadsPath h <> Some (Dir entries)) ->
  exists e,
    initialScan h w = (Threw e, record (Log info ReadingUploads) w).
Proof.
  intros H. unfold initialScan, winston_log. unfold bind at 1. unfold bind at 1.
  unfold readdirAsync at 1. cbn [fs record].
  destruct (fs w !! _uploadsPath h) as [[entries| |]|] eqn:E; eauto.
  by destruct (H entries).
Qed.

(** A failure inside the [try], here of the [stat] of an entry of the
    uploads folder: logged by the handler of line 142, watcher not
    started. *)
Lemma initialScan_stat_fails h w ls :
  fs w !! _uploadsPath h = Some (Dir ls) ->
  (exists f, In f ls /\ fs w !! path_join h (_uploadsPath h) f = None) ->
  exists e w',
    initialScan h w
    = (Returned (js_of_logger_result (winston_error_result h)), w') /\
    trace w' = Log error (ScanFailed e) :: Log info (EntriesFound (length ls))
               :: Log info ReadingUploads :: trace w /\
    _watcher w' = _watcher w /\ UplFile w' = UplFile w.
Proof.
  intros Hroot Hf.
  unfold initialScan, winston_log. unfold bind at 1. unfold bind at 1.
  unfold readdirAsync at 1. cbn [fs record]. rewrite Hroot.
  unfold try_catch. unfold bind at 1. unfold bind at 1.
  destruct (stat_some_fails h ls
              (record (Log info (EntriesFound (length ls)))
                 (record (Log info ReadingUploads) w))) as (e & E);
    [exact Hf|].
  rewrite E. unfold winston_error, winston_log, bind, ret.
  eexists _, _. split; [reflexivity|]. done.
Qed.

(** When the uploads folder can be listed and every entry can be
    stat-ed, the scan runs to its end: the file collection is replaced and
    only then is the watcher created ([winston.error] returning nothing). *)
Lemma initialScan_completes h w ls :
  winston_error_result h = Nothing ->
  fs w !! _uploadsPath h = Some (Dir ls) ->
  (forall f, In f ls -> fs w !! path_join h (_uploadsPath h) f <> None) ->
  exists w' rs before,
    initialScan h w = (Returned JsUndefined, w') /\
    _watcher w' = Some (_uploadsPath h) /\
    UplFile w' = rs /\
    trace w'
    = (ChokidarWatch (_uploadsPath h) :: Log info SettingWatcher
       :: (if (0 <? length rs)%nat
           then [FileInsertMany (map JsRecord rs);
                 Log info (InsertingFiles (length rs))]
           else [Log info NoFiles])
       ++ FileRemove :: Log info RemovingFiles :: before)%list.
Proof.
  intros Hn Hroot Hstat.
  unfold initialScan, try_catch. unfold bind at 1. unfold winston_log at 1.
  unfold bind at 1. unfold readdirAsync at 1. cbn [fs record]. rewrite Hroot.
  unfold bind at 1. unfold winston_log at 1. unfold bind at 1.
  match goal with |- context [promise_map _ ls ?W] =>
    destruct (stat_all h ls W) as (stats & E & Hl); [exact Hstat|]; rewrite E
  end.
  cbv zeta.
  unfold bind, winston_log, UplFolder_remove, UplFolder_insertMany,
    with_allFiles, watch, ret.
  match goal with |- context [traverse_and_replace h ?FN {| world := ?W; allFiles := [] |}] =>
    destruct (traverse_and_replace_settles h FN W Hn)
      as (o & s1 & rs & s2 & _ & _ & Hrun & Hupl & _ & _ & Htr);
    cbv zeta in Hrun; rewrite Hrun
  end.
  eexists _, rs, _. split; [reflexivity|]. cbn.
  split; [done|]. split; [done|]. rewrite Htr. reflexivity.
Qed.

Lemma initialScan_completes_witness :
  exists w',
    initialScan Sample.host Sample.tree = (Returned JsUndefined, w') /\
    _watcher w' = Some "/repo/uploads" /\
    map filename (UplFile w') = ["x.png"; "big.png"; "edge.png"; "y.txt"].
Proof.
  edestruct (initialScan_completes Sample.host Sample.tree
               ["a"; "x.png"; "big.png"; "edge.png"])
    as (w' & rs & before & Hrun & Hw & _); [reflexivity | vm_refl | |].
  - intros f Hf. simpl in Hf.
    destruct Hf as [<-|[<-|[<-|[<-|[]]]]]; vm_compute; discriminate.
  - exists w'. split; [exact Hrun|]. split; [exact Hw|].
    assert (Hw' : w' = snd (initialScan Sample.host Sample.tree))
      by (rewrite Hrun; reflexivity).
    rewrite Hw'. vm_refl.
Defined.

(** C7, on the code: the scan of an uploads folder that cannot be
    listed.  The promise of [initialScan] is rejected with the error of
    [readdir]; the only message logged is the first one, at level info,
    and the watcher is not started. *)
Theorem scan_of_missing_root_is_not_logged :
  exists w',
    initialScan Sample.host (Sample.world_of ∅)
    = (Threw (ENOENT "/repo/uploads"), w') /\
    trace w' = [Log info ReadingUploads] /\
    error_log w' = [] /\
    _watcher w' = None.
Proof.
  eexists. split; [vm_run|]. split; [vm_refl|]. split; vm_refl.
Qed.

(** * Further properties of the agent *)

(** ** [processFile], lines 167-245 *)

(** Nothing that goes wrong inside [processFile] escapes it: the promise
    is always fulfilled, with [false], with a document, or with the value
    of the [winston.error] call of line 243, and in that last case the
    error is the newest entry of the log. *)
Theorem processFile_never_rejects h fldName f w :
  exists v w',
    processFile h fldName f w = (Returned v, w') /\
    (v = JsFalse \/ (exists r, v = JsRecord r) \/
     (v = js_of_logger_result (winston_error_result h) /\
      exists e w0, w' = record (Log error (ProcessingError e)) w0)).
Proof.
  destruct (processFile_cases h fldName f w)
    as [(v & w' & Hb & Hp)|(e & w' & Hb & Hp)]; rewrite Hp.
  - eexists _, _. split; [done|].
    destruct (process_body_value _ _ _ _ _ _ Hb); auto.
  - eexists _, _. split; [done|]. right. right. eauto.
Qed.

(** Lines 177-180: an entry that [stat] finds but that is not a regular
    file (a directory, a device) is answered with [false]; one message at
    level info says so, nothing is logged as an error and nothing else
    happens. *)
Theorem processFile_skips_non_files h fldName f w n :
  fs w !! fPath_of h fldName f = Some n ->
  (forall x, n <> Reg x) ->
  processFile h fldName f w
  = (Returned JsFalse,
     record (Log info (NotAFile (fPath_of h fldName f)))
       (record (Log info (ProcessingFile fldName f)) w)).
Proof.
  unfold fPath_of. intros Hfs Hn. run. cbn. rewrite Hfs.
  destruct n as [entries|x|]; cbn; [done | by destruct (Hn x) | done].
Qed.

Lemma processFile_skips_non_files_witness :
  fs Sample.tree !! fPath_of Sample.host "" "a" = Some (Dir ["y.txt"; "bad.png"]) /\
  processFile Sample.host "" "a" Sample.tree
  = (Returned JsFalse,
     record (Log info (NotAFile "/repo/uploads/a"))
       (record (Log info (ProcessingFile "" "a")) Sample.tree)).
Proof.
  assert (H : fs Sample.tree !! fPath_of Sample.host "" "a"
              = Some (Dir ["y.txt"; "bad.png"])) by vm_refl.
  split; [exact H|].
  apply (processFile_skips_non_files Sample.host "" "a" Sample.tree _ H).
  discriminate.
Defined.

(** Lines 176 and 242-244: when [stat] fails because nothing is at the
    path, the error is logged once and the value of [winston.error] is
    returned; the file system is not touched. *)
Theorem processFile_missing_file h fldName f w :
  fs w !! fPath_of h fldName f = None ->
  processFile h fldName f w
  = (Returned (js_of_logger_result (winston_error_result h)),
     record (Log error (ProcessingError (ENOENT (fPath_of h fldName f))))
       (record (Log info (ProcessingFile fldName f)) w)).
Proof.
  unfold fPath_of. intros Hfs. run. cbn. rewrite Hfs. reflexivity.
Qed.

Lemma processFile_missing_file_witness :
  fs Sample.tree !! fPath_of Sample.host "a" "nothing.txt" = None /\
  error_log (snd (processFile Sample.host "a" "nothing.txt" Sample.tree))
  = [ProcessingError (ENOENT "/repo/uploads/a/nothing.txt")].
Proof.
  assert (H : fs Sample.tree !! fPath_of Sample.host "a" "nothing.txt" = None)
    by vm_refl.
  split; [exact H|].
  rewrite (processFile_missing_file Sample.host "a" "nothing.txt" Sample.tree H).
  reflexivity.
Defined.

(** [processFile] works on the file system and the log only: it makes no
    call to the catalog, to git or to the watcher, and both collections
    are what they were, whatever the outcome. *)
Theorem processFile_leaves_catalog_alone h fldName f w :
  same_catalog w (snd (processFile h fldName f w)).
Proof.
  destruct (processFile h fldName f w) as [o w'] eqn:E.
  by apply processFile_frame in E.
Qed.

Lemma process_body_writes_for_images_only h fldName f w v w' :
  process_body h fldName f w = (Returned v, w') ->
  (v = JsFalse \/ exists r, v = JsRecord r /\ category r = binary) ->
  fs w' = fs w.
Proof.
  run. intros H Hv. eval_in H.
  all: simplify_eq; try done.
  all: destruct Hv as [Hv|(r & Hv & Hc)]; simplify_eq.
Qed.

(** Only the image branch of lines 195-225 writes: when [processFile]
    answers [false] or returns a [binary] document, the file system is
    exactly what it was. *)
Theorem processFile_writes_for_images_only h fldName f w v w' :
  processFile h fldName f w = (Returned v, w') ->
  (v = JsFalse \/ exists r, v = JsRecord r /\ category r = binary) ->
  fs w' = fs w.
Proof.
  intros H Hv.
  destruct (processFile_cases h fldName f w)
    as [(v1 & w1 & Hb & Hp)|(e & w1 & Hb & Hp)]; rewrite Hp in H; simplify_eq.
  - by apply (process_body_writes_for_images_only _ _ _ _ _ _ Hb).
  - destruct Hv as [Hv|(r & Hv & _)]; destruct (winston_error_result h);
      discriminate.
Qed.

Lemma processFile_writes_for_images_only_witness :
  exists w',
    processFile Sample.host "" "big.png" Sample.tree
    = (Returned (JsRecord Sample.big_doc), w') /\
    category Sample.big_doc = binary /\
    fs w' = fs Sample.tree.
Proof.
  eexists. split; [vm_run|]. split; [reflexivity|].
  eapply (processFile_writes_for_images_only Sample.host "" "big.png");
    [vm_run|].
  right. exists Sample.big_doc. split; reflexivity.
Defined.

Lemma process_body_keeps_regular_files h fldName f w o w' k x :
  process_body h fldName f w = (o, w') ->
  fs w !! k = Some (Reg x) ->
  k <> thumb_path h fldName f ->
  fs w' !! k = Some (Reg x).
Proof.
  unfold thumb_path. run. cbv zeta.
  remember (path_join h (path_join h (_uploadsPath h) fldName) f) as P eqn:EP.
  remember (Path.parse (path_join h (_uploadsThumbsPath h)
                          (identify fldName f ++ ".png"))) as tp eqn:Etp.
  remember (Path.format tp) as T eqn:ET.
  remember (Path.dir tp) as D eqn:ED.
  clear EP Etp ET ED.
  intros H Hk Hne.
  eval_in H.
  all: simplify_eq; cbn [fs set_fs record] in *; try done.
  all: try (by rewrite lookup_insert_ne by congruence).
  all: rewrite ?lookup_insert_ne by done.
  all: try apply add_entry_reg.
  all: try (by rewrite lookup_insert_ne by congruence).
  all: try done.
Qed.

(** [processFile] never removes or overwrites an uploaded file: a regular
    file at any path other than the thumbnail path of the file being
    processed is still there afterwards, with the same content, whatever
    the outcome. *)
Theorem processFile_keeps_uploaded_files h fldName f w k x :
  fs w !! k = Some (Reg x) ->
  k <> thumb_path h fldName f ->
  fs (snd (processFile h fldName f w)) !! k = Some (Reg x).
Proof.
  intros Hk Hne.
  destruct (processFile_cases h fldName f w)
    as [(v1 & w1 & Hb & Hp)|(e & w1 & Hb & Hp)]; rewrite Hp; simpl;
    by apply (process_body_keeps_regular_files _ _ _ _ _ _ _ _ Hb).
Qed.

Lemma processFile_keeps_uploaded_files_witness :
  fs Sample.tree !! "/repo/uploads/a/y.txt" = Some (Sample.txt 2) /\
  fs (snd (processFile Sample.host "" "x.png" Sample.tree))
  !! "/repo/uploads/a/y.txt" = Some (Sample.txt 2).
Proof.
  assert (H : fs Sample.tree !! "/repo/uploads/a/y.txt" = Some (Sample.txt 2))
    by vm_refl.
  split; [exact H|].
  apply (processFile_keeps_uploaded_files Sample.host "" "x.png" Sample.tree
           _ _ H).
  vm_compute. discriminate.
Defined.

Lemma processFile_twice_witness :
  thumb_path Sample.host "" "x.png" <> fPath_of Sample.host "" "x.png" /\
  fs Sample.tree !! thumb_path Sample.host "" "x.png" <> Some Special /\
  exists w1,
    processFile Sample.host "" "x.png" Sample.tree
    = (Returned (JsRecord Sample.x_doc), w1) /\
    processFile Sample.host "" "x.png" w1
    = (Returned (JsRecord Sample.x_doc),
       record (Log info (GeneratingThumbnail "" "x.png"))
         (record (Log info (ProcessingFile "" "x.png")) w1)).
Proof.
  assert (H1 : thumb_path Sample.host "" "x.png" <> fPath_of Sample.host "" "x.png")
    by (vm_compute; discriminate).
  assert (H2 : fs Sample.tree !! thumb_path Sample.host "" "x.png" <> Some Special)
    by (vm_compute; discriminate).
  split; [exact H1|]. split; [exact H2|].
  eexists. split; [vm_run|].
  apply (processFile_twice Sample.host "" "x.png" Sample.tree);
    [vm_run | reflexivity | exact H1 | exact H2].
Defined.

(** ** [generateThumbnail], lines 254-270 *)

(** When [generateThumbnail] rejects, whether jimp could not read or
    decode the source or could not write the destination, the error it
    rejects with is the one it has just logged at level error, and no
    file has been written. *)
Theorem generateThumbnail_logs_what_it_rethrows h sourcePath destPath w e w' :
  generateThumbnail h sourcePath destPath w = (Threw e, w') ->
  fs w' = fs w /\
  exists rest, trace w' = Log error (ThumbnailError e) :: rest.
Proof.
  run. intros H. eval_in H.
  all: simplify_eq; cbn; eauto.
Qed.

Lemma generateThumbnail_logs_what_it_rethrows_witness :
  exists w',
    generateThumbnail Sample.host "/repo/uploads/a/bad.png" "/data/thumbs/t.png"
      Sample.tree
    = (Threw (BadImage "/repo/uploads/a/bad.png"), w') /\
    fs w' = fs Sample.tree /\
    trace w' = [Log error (ThumbnailError (BadImage "/repo/uploads/a/bad.png"));
                JimpRead "/repo/uploads/a/bad.png"].
Proof.
  eexists. split; [vm_run|].
  edestruct (generateThumbnail_logs_what_it_rethrows Sample.host
               "/repo/uploads/a/bad.png" "/data/thumbs/t.png" Sample.tree
               (BadImage "/repo/uploads/a/bad.png"))
    as [Hfs _]; [vm_run|].
  split; [exact Hfs | vm_refl].
Defined.

(** A thumbnail is written only after jimp has decoded the source: when
    [generateThumbnail] is fulfilled, the newest call is the write to
    [destPath], and unless [destPath] is a device it now holds what jimp
    made of the source. *)
Theorem generateThumbnail_writes_the_contained_image h sourcePath destPath w w' :
  generateThumbnail h sourcePath destPath w = (Returned tt, w') ->
  exists file img,
    fs w !! sourcePath = Some (Reg file) /\
    jimp_contain h (content file) = Some img /\
    trace w' = JimpWrite destPath :: JimpRead sourcePath :: trace w /\
    (fs w !! destPath <> Some Special -> fs w' !! destPath = Some (Reg img)).
Proof.
  run. intros H. eval_in H.
  all: simplify_eq; cbn [fs set_fs record trace] in *.
  all: eexists _, _; (split; [reflexivity || eassumption|]);
    (split; [eassumption|]); (split; [reflexivity|]).
  all: intros Hsp; try done; by rewrite lookup_insert_eq.
Qed.

Lemma generateThumbnail_writes_the_contained_image_witness :
  exists w',
    generateThumbnail Sample.host "/repo/uploads/x.png" "/data/thumbs/t.png"
      Sample.tree = (Returned tt, w') /\
    trace w' = [JimpWrite "/data/thumbs/t.png"; JimpRead "/repo/uploads/x.png"].
Proof.
  eexists. split; [vm_run|].
  edestruct (generateThumbnail_writes_the_contained_image Sample.host
               "/repo/uploads/x.png" "/data/thumbs/t.png" Sample.tree)
    as (file & img & _ & _ & Htr & _); [vm_run|].
  exact Htr.
Defined.

(** ** What [processFile] logs as errors *)



(** ** MIME type: content before extension, lines 184-189 *)

(** When the sniffing of the first 262 bytes gives a type, the extension
    table is not consulted: [processFile] does the same, step for step,
    on a host with any other [mime.lookup]. *)
Theorem sniffed_type_overrides_extension h lookup' fldName f w file m :
  fs w !! fPath_of h fldName f = Some (Reg file) ->
  fileType h (firstn 262 (content file)) = Some m ->
  let h' :=
    {| _uploadsPath := _uploadsPath h;
       _uploadsThumbsPath := _uploadsThumbsPath h;
       path_join := path_join h; fileType := fileType h;
       mime_lookup := lookup'; imageSize := imageSize h;
       jimp_contain := jimp_contain h;
       winston_error_result := winston_error_result h;
       upsert_other := upsert_other h; insert_other := insert_other h |} in
  processFile h' fldName f w = processFile h fldName f w /\
  forall r w',
    processFile h fldName f w = (Returned (JsRecord r), w') -> mime r = m.
Proof.
  intros Hfs Hft h'. unfold fPath_of in Hfs. split.
  - subst h'. destruct (readable file) eqn:Hr; run; eval_goal; reflexivity.
  - intros r w' H. apply processFile_record, process_body_record in H.
    destruct H as (file' & Hfs' & _ & _ & Hm & _).
    unfold fPath_of in *. cbn in Hfs'. rewrite Hfs in Hfs'.
    injection Hfs' as <-. rewrite Hm. unfold mime_of. by rewrite Hft.
Qed.

Lemma sniffed_type_overrides_extension_witness :
  fs Sample.tree !! fPath_of Sample.host "" "x.png"
  = Some (Sample.png 1000 400 100) /\
  processFile
    {| _uploadsPath := "/repo/uploads"; _uploadsThumbsPath := "/data/thumbs";
       path_join := Sample.join; fileType := Sample.sniff;
       mime_lookup := fun _ => Some "text/plain"; imageSize := Sample.dims;
       jimp_contain := Sample.thumb; winston_error_result := Nothing;
       upsert_other := fun _ _ _ => None; insert_other := fun _ _ => None |}
    "" "x.png" Sample.tree
  = processFile Sample.host "" "x.png" Sample.tree.
Proof.
  assert (H : fs Sample.tree !! fPath_of Sample.host "" "x.png"
              = Some (Sample.png 1000 400 100)) by vm_refl.
  split; [exact H|].
  apply (sniffed_type_overrides_extension Sample.host
           (fun _ => Some "text/plain") "" "x.png" Sample.tree _ "image/png" H).
  reflexivity.
Defined.

(** ** The 'add' handler on something that is not a file *)

Lemma on_add_after_skip_witness :
  exists w1 o w2,
    processFile Sample.host (fst (parseUploadsRelPath "a"))
      (snd (parseUploadsRelPath "a")) Sample.tree = (Returned JsFalse, w1) /\
    on_add Sample.host "a" Sample.tree = (o, w2) /\
    In (FileFindByIdAndUpdate JsUndefined JsFalse) (trace w2).
Proof.
  eexists _, (Threw CatalogError), _. split; [vm_run|]. split; [vm_run|].
  eapply (on_add_after_skip Sample.host "a" Sample.tree _ (Threw CatalogError));
    vm_run.
Defined.

(** ** [initialScan], lines 81-144 *)

#[local] Arguments as_records : simpl never.

Lemma stat_all_stats h ls w :
  (forall f, In f ls -> fs w !! path_join h (_uploadsPath h) f <> None) ->
  exists stats,
    promise_map
      (fun f =>
         let* s := statAsync (path_join h (_uploadsPath h) f) in ret (f, s))
      ls w
    = (Returned stats, w) /\
    map fst (List.filter (fun s => Stats.isDirectory (snd s)) stats)
    = List.filter (is_directory_at h w) ls.
Proof.
  induction ls as [|f ls IH]; intros H; cbn [promise_map].
  - by exists [].
  - destruct IH as (stats & E & Hl); [intros; apply H; by right|].
    unfold bind at 1. unfold bind at 1, statAsync at 1.
    cbn [List.filter]. unfold is_directory_at at 1.
    destruct (fs w !! path_join h (_uploadsPath h) f) as [n|] eqn:En;
      [|by destruct (H f); [left|]].
    unfold ret at 1. unfold bind at 1. rewrite E.
    eexists. split; [reflexivity|].
    destruct n; cbn; by rewrite Hl.
Qed.

Lemma lift_same_folders {A} (m : M World A) s o s' :
  (forall w o' w', m w = (o', w') -> same_catalog w w') ->
  lift m s = (o, s') -> same_folders s s'.
Proof.
  intros Hm. unfold lift.
  destruct (m (world s)) as [o' w'] eqn:E. intros H. simplify_eq.
  destruct (Hm _ _ _ E) as (_ & Hf & Hw & _). by split.
Qed.

Lemma same_folders_refl s : same_folders s s.
Proof. by split. Qed.

Lemma same_folders_trans s1 s2 s3 :
  same_folders s1 s2 -> same_folders s2 s3 -> same_folders s1 s3.
Proof. intros [H1 H2] [H3 H4]. split; congruence. Qed.

Lemma scan_file_same_folders h fldName f s o s' :
  scan_file h fldName f s = (o, s') -> same_folders s s'.
Proof.
  unfold scan_file, bind.
  destruct (lift (processFile h fldName f) s) as [[v|e] s1] eqn:E1.
  - apply (lift_same_folders _ _ _ _ (processFile_frame h fldName f)) in E1.
    destruct (truthy v); unfold lift, push, winston_log; cbn;
      intros H; simplify_eq; destruct E1; by split.
  - intros H. simplify_eq.
    by apply (lift_same_folders _ _ _ _ (processFile_frame h fldName f)) in E1.
Qed.

Lemma winston_log_frame lvl m w o w' :
  winston_log lvl m w = (o, w') -> same_catalog w w'.
Proof. unfold winston_log. intros H. simplify_eq. by repeat split. Qed.

Lemma readdirAsync_frame p w o w' :
  readdirAsync p w = (o, w') -> same_catalog w w'.
Proof.
  unfold readdirAsync. intros H.
  destruct (fs w !! p) as [[| |]|]; simplify_eq; by repeat split.
Qed.

Lemma scan_folder_same_folders h fldName s o s' :
  scan_folder h fldName s = (o, s') -> same_folders s s'.
Proof.
  unfold scan_folder. cbv zeta. unfold bind at 1.
  destruct (lift (winston_log info (TraversingDir fldName)) s)
    as [[[]|e] sa] eqn:Ea;
    apply (lift_same_folders _ _ _ _ (winston_log_frame _ _)) in Ea;
    [|intros H; by simplify_eq].
  unfold bind at 1.
  destruct (lift (readdirAsync _) sa) as [[fList|e] sb] eqn:Eb;
    apply (lift_same_folders _ _ _ _ (readdirAsync_frame _)) in Eb;
    [|intros H; simplify_eq; by eapply same_folders_trans].
  unfold bind at 1.
  destruct (lift (winston_log info (FilesFound fldName (length fList))) sb)
    as [[[]|e] sc] eqn:Ec;
    apply (lift_same_folders _ _ _ _ (winston_log_frame _ _)) in Ec;
    [|intros H; simplify_eq; eauto using same_folders_trans].
  unfold bind at 1.
  destruct (promise_map (scan_file h fldName) fList sc) as [[us|e] sd] eqn:Ed;
    apply (promise_map_respects same_folders) in Ed;
    eauto using same_folders_refl, same_folders_trans, scan_file_same_folders;
    unfold ret; intros H; simplify_eq; eauto using same_folders_trans.
Qed.

Lemma replace_files_same_folders h s o s' :
  replace_files h s = (o, s') -> same_folders s s'.
Proof.
  unfold replace_files, lift, bind, ret, winston_log, UplFile_remove,
    UplFile_insertMany, same_folders. cbn.
  destruct (allFiles s) as [|v vs]; cbn.
  - intros H. simplify_eq. split; reflexivity.
  - destruct (as_records (v :: vs)); [|destruct (insert_other h _ _)];
      intros H; simplify_eq; split; reflexivity.
Qed.

Lemma traverse_and_replace_same_folders h folderNames s o s' :
  traverse_and_replace h folderNames s = (o, s') -> same_folders s s'.
Proof.
  unfold traverse_and_replace, try_catch_finally, try_catch.
  unfold bind at 1.
  destruct (promise_map (scan_folder h) folderNames s) as [[us|e] s1] eqn:E;
    apply (promise_map_respects same_folders) in E;
    eauto using same_folders_refl, same_folders_trans, scan_folder_same_folders.
  - unfold ret.
    destruct (replace_files h s1) as [[[]|e] s2] eqn:E2;
      apply replace_files_same_folders in E2;
      intros H; simplify_eq; eauto using same_folders_trans.
  - unfold lift at 1, winston_log at 1. cbv beta iota zeta.
    match goal with |- context [replace_files h ?S] =>
      destruct (replace_files h S) as [[[]|e'] s2] eqn:E2;
      apply replace_files_same_folders in E2
    end;
      intros H; simplify_eq; destruct E, E2; cbn in *; split; congruence.
Qed.

Lemma pushed_from_same names s s' :
  allFiles s' = allFiles s -> pushed_from names s s'.
Proof. intros H. exists []. split; [simpl; by rewrite app_nil_r | done]. Qed.

Lemma pushed_from_trans names s1 s2 s3 :
  pushed_from names s1 s2 -> pushed_from names s2 s3 -> pushed_from names s1 s3.
Proof.
  intros (rs1 & H1 & F1) (rs2 & H2 & F2). exists (rs1 ++ rs2)%list. split.
  - by rewrite H2, H1, map_app, app_assoc.
  - by apply Forall_app.
Qed.

Lemma promise_map_respects_in {S A B} (R : S -> S -> Prop) (f : A -> M S B) l :
  (forall s, R s s) ->
  (forall s1 s2 s3, R s1 s2 -> R s2 s3 -> R s1 s3) ->
  (forall x s o s', In x l -> f x s = (o, s') -> R s s') ->
  forall s o s', promise_map f l s = (o, s') -> R s s'.
Proof.
  intros Hrefl Htrans. induction l as [|x l IH]; intros Hf s o s'; simpl.
  - unfold ret. intros H. simplify_eq. apply Hrefl.
  - unfold bind at 1. destruct (f x s) as [[y|e] s1] eqn:E1.
    + unfold bind at 1.
      destruct (promise_map f l s1) as [[zs|e] s2] eqn:E2;
        unfold ret; intros H; simplify_eq;
        (eapply Htrans;
         [eapply Hf; [by left | exact E1]
         |eapply IH; [intros; eapply Hf; [by right | eassumption] | exact E2]]).
    + intros H. simplify_eq. eapply Hf; [by left | exact E1].
Qed.

Lemma scan_file_pushes_from h names fldName f s o s' :
  winston_error_result h = Nothing ->
  In fldName names ->
  scan_file h fldName f s = (o, s') -> pushed_from names s s'.
Proof.
  intros Hn Hin. unfold scan_file, lift, push, winston_log, bind.
  destruct (processFile h fldName f (world s)) as [[v|e] w'] eqn:Hp.
  - destruct v as [| |x| |r]; cbn; intros H; simplify_eq;
      try (by apply pushed_from_same).
    + destruct (Path.nonempty x); simplify_eq; cbn.
      * destruct (processFile_value h fldName f (world s))
          as (v & w1 & Hp' & [?|[[r ?]|?]]); rewrite Hp in Hp'; simplify_eq.
        destruct (winston_error_result h); discriminate.
      * by apply pushed_from_same.
    + destruct (processFile_value h fldName f (world s))
        as (v & w1 & Hp' & [?|[[r ?]|?]]); rewrite Hp in Hp'; simplify_eq.
      rewrite Hn in *. discriminate.
    + exists [r]. split; [done|]. constructor; [|done].
      exists fldName. split; [done|].
      apply processFile_record, process_body_record in Hp.
      by destruct Hp as (_ & _ & _ & _ & _ & Hfo & _).
  - destruct (processFile_value h fldName f (world s))
      as (v & w1 & Hp' & _); rewrite Hp in Hp'; simplify_eq.
Qed.

Lemma scan_folder_pushes_from h names fldName s o s' :
  winston_error_result h = Nothing ->
  In fldName names ->
  scan_folder h fldName s = (o, s') -> pushed_from names s s'.
Proof.
  intros Hn Hin. unfold scan_folder. cbv zeta. unfold bind at 1.
  destruct (lift (winston_log info (TraversingDir fldName)) s)
    as [[[]|e] sa] eqn:Ea; [|discriminate Ea].
  apply lift_allFiles in Ea.
  unfold bind at 1.
  destruct (lift (readdirAsync _) sa) as [[fList|e] sb] eqn:Eb;
    apply lift_allFiles in Eb.
  - unfold bind at 1.
    destruct (lift (winston_log info (FilesFound fldName (length fList))) sb)
      as [[[]|e] sc] eqn:Ec; [|discriminate Ec].
    apply lift_allFiles in Ec.
    unfold bind at 1.
    destruct (promise_map (scan_file h fldName) fList sc) as [[us|e] sd] eqn:Ed;
      apply (promise_map_respects (pushed_from names)) in Ed;
      eauto using pushed_from_trans, scan_file_pushes_from;
      try (intros; by apply pushed_from_same);
      unfold ret; intros H; simplify_eq;
      destruct Ed as (rs & Hrs & F); exists rs; (split; [congruence | done]).
  - intros H. simplify_eq. apply pushed_from_same. congruence.
Qed.

Lemma map_JsRecord_inj rs rs' : map JsRecord rs = map JsRecord rs' -> rs = rs'.
Proof.
  revert rs'. induction rs as [|r rs IH]; intros [|r' rs'] H; simplify_eq/=;
    [done|]. f_equal. by apply IH.
Qed.

(** The two collections after a scan that gets as far as the traversal. *)
Lemma initialScan_collections h w ls :
  winston_error_result h = Nothing ->
  fs w !! _uploadsPath h = Some (Dir ls) ->
  (forall f, In f ls -> fs w !! path_join h (_uploadsPath h) f <> None) ->
  exists w',
    initialScan h w = (Returned JsUndefined, w') /\
    UplFolder w' = map folder_doc (folder_names h w ls) /\
    Forall (filed_under (folder_names h w ls)) (UplFile w').
Proof.
  intros Hn Hroot Hstat.
  unfold initialScan, try_catch. unfold bind at 1. unfold winston_log at 1.
  unfold bind at 1. unfold readdirAsync at 1. cbn [fs record]. rewrite Hroot.
  unfold bind at 1. unfold winston_log at 1. unfold bind at 1.
  match goal with |- context [promise_map _ ls ?W] =>
    destruct (stat_all_stats h ls W) as (stats & E & Hl); [exact Hstat|];
    rewrite E
  end.
  unfold is_directory_at in Hl. cbn [fs record] in Hl.
  fold (is_directory_at h w) in Hl.
  cbv zeta. rewrite Hl. fold (folder_names h w ls).
  unfold bind, winston_log, UplFolder_remove, UplFolder_insertMany,
    with_allFiles, watch, ret.
  match goal with
  | |- context [traverse_and_replace h ?FN {| world := ?W; allFiles := [] |}] =>
      destruct (traverse_and_replace_settles h FN W Hn)
        as (o & s1 & rs & s2 & Htrav & Hall & Hrun & Hupl & _);
      cbv zeta in Hrun; rewrite Hrun;
      pose proof (traverse_and_replace_same_folders _ _ _ _ _ Hrun) as [Hf _]
  end.
  eexists. split; [reflexivity|]. cbn. rewrite Hf. cbn.
  split; [done|]. rewrite Hupl.
  unfold bind, ret in Htrav.
  destruct (promise_map (scan_folder h) (folder_names h w ls) _)
    as [[us|e] s1'] eqn:Et; simplify_eq.
  all: apply (promise_map_respects_in (pushed_from (folder_names h w ls))) in Et;
    eauto using pushed_from_trans, scan_folder_pushes_from;
    try (intros; by apply pushed_from_same).
  all: destruct Et as (rs' & Hrs' & F); cbn in Hrs'; rewrite Hall in Hrs';
    apply map_JsRecord_inj in Hrs'; by subst.
Qed.

(** Lines 89-106: a scan that gets as far as the traversal has replaced
    the folder collection by one document for the root folder, named
    [""], followed by one per directory among the entries of the uploads
    folder, in the order of the listing; files of the uploads folder give
    no folder document, and what the collection held before is gone. *)
Theorem scan_replaces_folder_collection h w ls :
  winston_error_result h = Nothing ->
  fs w !! _uploadsPath h = Some (Dir ls) ->
  (forall f, In f ls -> fs w !! path_join h (_uploadsPath h) f <> None) ->
  exists w',
    initialScan h w = (Returned JsUndefined, w') /\
    UplFolder w' = map folder_doc (folder_names h w ls).
Proof.
  intros Hn Hroot Hstat.
  destruct (initialScan_collections h w ls Hn Hroot Hstat) as (w' & ? & ? & _).
  eauto.
Qed.

Lemma scan_replaces_folder_collection_witness :
  exists w',
    initialScan Sample.host Sample.tree = (Returned JsUndefined, w') /\
    UplFolder w' = [FolderDoc.Make "f:" ""; FolderDoc.Make "f:a" "a"].
Proof.
  edestruct (scan_replaces_folder_collection Sample.host Sample.tree
               ["a"; "x.png"; "big.png"; "edge.png"])
    as (w' & Hrun & Hf); [reflexivity | vm_refl | |].
  - intros f Hf. simpl in Hf.
    destruct Hf as [<-|[<-|[<-|[<-|[]]]]]; vm_compute; discriminate.
  - exists w'. split; [exact Hrun|]. rewrite Hf. vm_refl.
Defined.

(** After such a scan every document of the file collection is filed
    under a folder of the folder collection: its [folder] key is the
    [_id] of one of the folder documents just inserted. *)
Theorem scan_links_files_to_folders h w ls :
  winston_error_result h = Nothing ->
  fs w !! _uploadsPath h = Some (Dir ls) ->
  (forall f, In f ls -> fs w !! path_join h (_uploadsPath h) f <> None) ->
  exists w',
    initialScan h w = (Returned JsUndefined, w') /\
    forall r, In r (UplFile w') ->
              exists d, In d (UplFolder w') /\ folder r = FolderDoc._id d.
Proof.
  intros Hn Hroot Hstat.
  destruct (initialScan_collections h w ls Hn Hroot Hstat)
    as (w' & Hrun & Hf & Hall).
  exists w'. split; [exact Hrun|]. intros r Hr.
  rewrite Forall_forall in Hall. apply list_elem_of_In in Hr.
  destruct (Hall r Hr) as (fldName & Hin & Hfo).
  exists (folder_doc fldName). split; [|exact Hfo].
  rewrite Hf. by apply in_map.
Qed.

Lemma scan_links_files_to_folders_witness :
  exists w',
    initialScan Sample.host Sample.tree = (Returned JsUndefined, w') /\
    map folder (UplFile w') = ["f:"; "f:"; "f:"; "f:a"] /\
    map FolderDoc._id (UplFolder w') = ["f:"; "f:a"].
Proof.
  edestruct (scan_links_files_to_folders Sample.host Sample.tree
               ["a"; "x.png"; "big.png"; "edge.png"])
    as (w' & Hrun & _); [reflexivity | vm_refl | |].
  - intros f Hf. simpl in Hf.
    destruct Hf as [<-|[<-|[<-|[<-|[]]]]]; vm_compute; discriminate.
  - exists w'. split; [exact Hrun|].
    assert (Hw' : w' = snd (initialScan Sample.host Sample.tree))
      by (rewrite Hrun; reflexivity).
    rewrite Hw'. split; vm_refl.
Defined.

(** Lines 89-92 and 141-143: when the [stat] of an entry of the uploads
    folder fails, the scan stops there.  The failure is logged by the
    outer handler and that is all: both collections, the file system and
    the watcher are as before, and the promise is fulfilled with the value
    of [winston.error]. *)
Theorem scan_stat_failure_changes_nothing h w ls :
  fs w !! _uploadsPath h = Some (Dir ls) ->
  (exists f, In f ls /\ fs w !! path_join h (_uploadsPath h) f = None) ->
  exists e,
    initialScan h w
    = (Returned (js_of_logger_result (winston_error_result h)),
       record (Log error (ScanFailed e))
         (record (Log info (EntriesFound (length ls)))
            (record (Log info ReadingUploads) w))).
Proof.
  intros Hroot Hf.
  unfold initialScan, winston_log. unfold bind at 1. unfold bind at 1.
  unfold readdirAsync at 1. cbn [fs record]. rewrite Hroot.
  unfold try_catch. unfold bind at 1. unfold bind at 1.
  destruct (stat_some_fails h ls
              (record (Log info (EntriesFound (length ls)))
                 (record (Log info ReadingUploads) w))) as (e & E);
    [exact Hf|].
  rewrite E. exists e. reflexivity.
Qed.

Lemma scan_stat_failure_changes_nothing_witness :
  fs Sample.stale !! "/repo/uploads" = Some (Dir ["x.png"; "gone"]) /\
  fs Sample.stale !! "/repo/uploads/gone" = None /\
  exists w',
    initialScan Sample.host Sample.stale = (Returned JsUndefined, w') /\
    UplFile w' = [Sample.old_record] /\
    _watcher w' = None /\
    error_log w' = [ScanFailed (ENOENT "/repo/uploads/gone")].
Proof.
  assert (H1 : fs Sample.stale !! "/repo/uploads" = Some (Dir ["x.png"; "gone"]))
    by vm_refl.
  assert (H2 : fs Sample.stale !! "/repo/uploads/gone" = None) by vm_refl.
  split; [exact H1|]. split; [exact H2|].
  destruct (scan_stat_failure_changes_nothing Sample.host Sample.stale
              ["x.png"; "gone"] H1) as (e & Hrun).
  { exists "gone". split; [simpl; auto | exact H2]. }
  eexists. split; [exact Hrun|].
  split; [reflexivity|]. split; [reflexivity|].
  assert (He : Returned (A := JsValue) JsUndefined
               = Returned (js_of_logger_result (winston_error_result Sample.host)))
    by reflexivity.
  assert (Hw : snd (initialScan Sample.host Sample.stale)
               = record (Log error (ScanFailed e))
                   (record (Log info (EntriesFound 2))
                      (record (Log info ReadingUploads) Sample.stale)))
    by (rewrite Hrun; reflexivity).
  assert (Hl : error_log (snd (initialScan Sample.host Sample.stale))
               = [ScanFailed (ENOENT "/repo/uploads/gone")]) by vm_refl.
  rewrite Hw in Hl. exact Hl.
Defined.

(** Lines 115-122 with 177-180: the entries of a folder are all handed to
    [processFile], sub-directories included.  A directory is answered
    with [false], so the scan pushes nothing for it and reports it at
    level error as a skipped file. *)
Theorem scan_reports_directories_as_skipped h fldName f s entries :
  fs (world s) !! fPath_of h fldName f = Some (Dir entries) ->
  scan_file h fldName f s
  = (Returned tt,
     {| world :=
          record (Log error (SkippingFile f))
            (record (Log info (NotAFile (fPath_of h fldName f)))
               (record (Log info (ProcessingFile fldName f)) (world s)));
        allFiles := allFiles s |}).
Proof.
  unfold fPath_of. intros Hfs.
  unfold scan_file, lift, bind at 1. run. cbn. rewrite Hfs. reflexivity.
Qed.

Lemma scan_reports_directories_as_skipped_witness :
  fs Sample.tree !! fPath_of Sample.host "" "a" = Some (Dir ["y.txt"; "bad.png"]) /\
  error_log
    (world (snd (scan_file Sample.host "" "a"
                   {| world := Sample.tree; allFiles := [] |})))
  = [SkippingFile "a"].
Proof.
  assert (H : fs Sample.tree !! fPath_of Sample.host "" "a"
              = Some (Dir ["y.txt"; "bad.png"])) by vm_refl.
  split; [exact H|].
  rewrite (scan_reports_directories_as_skipped Sample.host "" "a"
             {| world := Sample.tree; allFiles := [] |} _ H).
  reflexivity.
Defined.

(** ** [parseUploadsRelPath], lines 152-158 *)

Lemma length_append_string a b :
  String.length (a ++ b) = (String.length a + String.length b)%nat.
Proof. induction a as [|c a IH]; simpl; [done | by rewrite IH]. Qed.

Lemma substring_app_l a b :
  String.substring 0 (String.length a) (a ++ b) = a.
Proof.
  induction a as [|c a IH]; simpl.
  - by destruct b.
  - by rewrite IH.
Qed.

Lemma substring_app_r a b k m :
  String.substring (String.length a + k) m (a ++ b) = String.substring k m b.
Proof. induction a as [|c a IH]; simpl; [done | exact IH]. Qed.

Lemma get_app_r a b i :
  String.get (String.length a + i) (a ++ b) = String.get i b.
Proof. induction a as [|c a IH]; simpl; [done | exact IH]. Qed.

(** The scan of [path.parse] once it has seen the last component: it
    stops at the first separator it meets. *)
Lemma parse_loop_seen p start n st (L : Z) :
  Path.matchedSlash st = false ->
  Path.end_ st <> (-1)%Z ->
  (forall i, (L < i < start + Z.of_nat n)%Z ->
             Path.is_char "/" (Path.charCodeAt p i) = false) ->
  Path.is_char "/" (Path.charCodeAt p L) = true ->
  (start <= L < start + Z.of_nat n)%Z ->
  Path.startPart (Path.parse_loop p start n st) = (L + 1)%Z /\
  Path.end_ (Path.parse_loop p start n st) = Path.end_ st.
Proof.
  revert st. induction n as [|n IH]; intros st Hm He Hns Hs Hr; [lia|].
  cbn [Path.parse_loop]. cbv zeta.
  destruct (Z.eq_dec (start + Z.of_nat n)%Z L) as [Heq|Hne].
  - rewrite Heq, Hs, Hm. simpl. done.
  - rewrite Hns by lia.
    assert (Hend : (Path.end_ st =? -1)%Z = false) by (apply Z.eqb_neq; lia).
    rewrite Hend.
    match goal with |- context [Path.parse_loop p start n ?s] =>
      destruct (IH s) as [IH1 IH2]
    end.
    + repeat case_match; simpl; done.
    + repeat case_match; simpl; done.
    + intros i Hi. apply Hns. lia.
    + done.
    + lia.
    + rewrite IH1, IH2. repeat case_match; simpl; done.
Qed.

Lemma parse_loop_fresh p start n st (L : Z) :
  Path.matchedSlash st = true ->
  Path.end_ st = (-1)%Z ->
  (forall i, (L < i < start + Z.of_nat n)%Z ->
             Path.is_char "/" (Path.charCodeAt p i) = false) ->
  Path.is_char "/" (Path.charCodeAt p L) = true ->
  (0 <= start <= L)%Z -> (L + 1 < start + Z.of_nat n)%Z ->
  Path.startPart (Path.parse_loop p start n st) = (L + 1)%Z /\
  Path.end_ (Path.parse_loop p start n st) = (start + Z.of_nat n)%Z.
Proof.
  intros Hm He Hns Hs Hr Hlt. destruct n as [|n]; [lia|].
  cbn [Path.parse_loop]. cbv zeta.
  rewrite Hns by lia. rewrite He. simpl (-1 =? -1)%Z. cbv iota.
  match goal with |- context [Path.parse_loop p start n ?s] =>
    destruct (parse_loop_seen p start n s L) as [H1 H2]
  end.
  - repeat case_match; simpl; done.
  - repeat case_match; simpl; lia.
  - intros i Hi. apply Hns. lia.
  - done.
  - lia.
  - rewrite H1, H2. split; [done|]. repeat case_match; simpl; lia.
Qed.

Lemma parse_folder_and_file fldName f :
  fldName <> "" -> f <> "" -> bare f = true ->
  Path.dir (Path.parse (fldName ++ "/" ++ f)) = fldName /\
  Path.base (Path.parse (fldName ++ "/" ++ f)) = f.
Proof.
  intros Hfld Hf Hb.
  set (p := fldName ++ "/" ++ f).
  set (L := Z.of_nat (String.length fldName)).
  set (N := Z.of_nat (String.length f)).
  assert (HL : (1 <= L)%Z) by (subst L; destruct fldName; [done | simpl; lia]).
  assert (HN : (1 <= N)%Z) by (subst N; destruct f; [done | simpl; lia]).
  assert (Hlen : Z.of_nat (String.length p) = (L + 1 + N)%Z).
  { subst p L N. rewrite !length_append_string. simpl. lia. }
  assert (Hslash : Path.is_char "/" (Path.charCodeAt p L) = true).
  { unfold Path.charCodeAt. subst L p. rewrite Nat2Z.id.
    rewrite <- (Nat.add_0_r (String.length fldName)), get_app_r. done. }
  assert (Hns : forall i, (L < i < L + 1 + N)%Z ->
                          Path.is_char "/" (Path.charCodeAt p i) = false).
  { intros i Hi. unfold Path.charCodeAt. subst p L.
    replace (Z.to_nat i)
      with (String.length fldName + S (Z.to_nat (i - Z.of_nat (String.length fldName) - 1)))%nat
      by lia.
    rewrite get_app_r. simpl. by apply get_bare. }
  unfold Path.parse. fold p.
  destruct (String.length p =? 0)%nat eqn:E0; [apply Nat.eqb_eq in E0; lia|].
  cbv zeta.
  set (abs := Path.is_char "/" (Path.charCodeAt p 0)).
  set (start := (if abs then 1 else 0)%Z).
  assert (Hstart : (0 <= start <= 1)%Z) by (subst start; destruct abs; lia).
  destruct (parse_loop_fresh p start
              (Z.to_nat (Z.of_nat (String.length p) - start))
              (Path.Scan (-1) 0 (-1) true 0) L) as [Hsp Hend];
    try done; try lia.
  { intros i Hi. apply Hns. lia. }
  set (st := Path.parse_loop p start _ _) in *.
  rewrite Z2Nat.id in Hend by lia.
  replace (start + (Z.of_nat (String.length p) - start))%Z
    with (L + 1 + N)%Z in Hend by lia.
  rewrite Hsp, Hend.
  replace (negb (L + 1 + N =? -1)%Z) with true
    by (symmetry; apply negb_true_iff, Z.eqb_neq; lia).
  replace (L + 1 =? 0)%Z with false by (symmetry; apply Z.eqb_neq; lia).
  replace (L + 1 >? 0)%Z with true by (symmetry; apply Z.gtb_lt; lia).
  simpl andb. cbv iota.
  assert (Hbase : Path.slice p (L + 1) (L + 1 + N) = f).
  { unfold Path.slice. subst p L N.
    replace (Z.to_nat (Z.of_nat (String.length fldName) + 1))
      with (String.length fldName + 1)%nat by lia.
    rewrite substring_app_r. simpl.
    replace (Z.to_nat _) with (String.length f) by lia.
    apply substring_all. }
  assert (Hdir : Path.slice p 0 (L + 1 - 1) = fldName).
  { unfold Path.slice. subst p L.
    replace (Z.to_nat (Z.of_nat (String.length fldName) + 1 - 1 - 0))
      with (String.length fldName) by lia.
    change (Z.to_nat 0) with 0%nat. apply substring_app_l. }
  rewrite Hbase, Hdir. by destruct (_ || _).
Qed.

(** For a file [f] in a folder [fldName] the watcher reports the path
    [fldName + "/" + f]; [parseUploadsRelPath] splits it back into the
    folder and the file name, so the 'add' handler runs [processFile]
    with the arguments the initial scan uses for that file, and the two
    give the same document under the same identifier. *)
Theorem subfolder_paths_agree fldName f :
  fldName <> "" -> f <> "" -> bare f = true ->
  parseUploadsRelPath (fldName ++ "/" ++ f) = (fldName, f) /\
  forall h w,
    processFile h (fst (parseUploadsRelPath (fldName ++ "/" ++ f)))
      (snd (parseUploadsRelPath (fldName ++ "/" ++ f))) w
    = processFile h fldName f w.
Proof.
  intros Hfld Hf Hb.
  assert (Hp : parseUploadsRelPath (fldName ++ "/" ++ f) = (fldName, f)).
  { unfold parseUploadsRelPath. cbv zeta.
    destruct (parse_folder_and_file fldName f Hfld Hf Hb) as [-> ->]. done. }
  rewrite Hp. done.
Qed.

Lemma subfolder_paths_agree_witness :
  parseUploadsRelPath ("a" ++ "/" ++ "y.txt") = ("a", "y.txt") /\
  exists w',
    processFile Sample.host (fst (parseUploadsRelPath ("a" ++ "/" ++ "y.txt")))
      (snd (parseUploadsRelPath ("a" ++ "/" ++ "y.txt"))) Sample.tree
    = (Returned (JsRecord (Sample.y_doc 2)), w').
Proof.
  destruct (subfolder_paths_agree "a" "y.txt") as [Hp Hsame];
    [discriminate | discriminate | reflexivity |].
  split; [exact Hp|].
  eexists. rewrite Hsame. vm_run.
Defined.

(** ** A broken image, lines 193-195 *)

(** The dimensions are read before anything is done for the thumbnail:
    when image-size rejects a file that passed the size and type tests,
    [processFile] logs that error and returns what [winston.error]
    returns, without having created the cache directory or called
    jimp. *)
Theorem processFile_bad_image h fldName f w file :
  fs w !! fPath_of h fldName f = Some (Reg file) ->
  readable file = true ->
  is_image h (fPath_of h fldName f) file = true ->
  imageSize h (content file) = None ->
  processFile h fldName f w
  = (Returned (js_of_logger_result (winston_error_result h)),
     record (Log error (ProcessingError (BadImage (fPath_of h fldName f))))
       (record (Log info (ProcessingFile fldName f)) w)).
Proof.
  unfold is_image, mime_of, fPath_of. intros Hfs Hr Hi Hd.
  apply andb_true_iff in Hi as [Hlt Hinc].
  run. eval_goal. reflexivity.
Qed.

Lemma processFile_bad_image_witness :
  fs Sample.tree !! fPath_of Sample.host "a" "bad.png" = Some Sample.broken_png /\
  exists w',
    processFile Sample.host "a" "bad.png" Sample.tree
    = (Returned JsUndefined, w') /\
    fs w' = fs Sample.tree /\
    trace w' = [Log error (ProcessingError (BadImage "/repo/uploads/a/bad.png"));
                Log info (ProcessingFile "a" "bad.png")].
Proof.
  assert (H : fs Sample.tree !! fPath_of Sample.host "a" "bad.png"
              = Some Sample.broken_png) by vm_refl.
  split; [exact H|].
  pose proof (processFile_bad_image Sample.host "a" "bad.png" Sample.tree _ H
                eq_refl eq_refl eq_refl) as Hrun.
  eexists. split; [exact Hrun|]. split; reflexivity.
Defined.
